(** * Risk-Analysis: the computational core of [risk_core.py]

    A shallow embedding of the three estimators ([_shannon_entropy],
    [_mutual_information_norm], [_hurst_exponent_rs]) and of the threshold
    classifier inside [detect_risk_factors].

    Conventions of the model.
    - A return series is a [list Q]: every finite binary64 number is a
      rational, and a series holding NaN or an infinity is outside the model
      (numpy's histogram refuses such a range).
    - Arithmetic is exact.  Histogram binning, means and variances are
      computed in [Q]; logarithms and square roots live in [R].  Rounding
      error of the binary64 operations is not modelled; the theorems on
      rescaled inputs are therefore stated for powers of two, which
      binary64 applies without rounding, and the bounds on the estimators
      are stated only where rounding cannot break them.
    - A Python float that may be NaN is a [pyfloat]: [NaN] or [Val r].
    - An exception is a value of [exn]; code that may raise returns a
      [result]. *)

From Stdlib Require Import PrimFloat.
From Stdlib Require Import String Bool ZArith QArith Qpower Qround Reals Qreals Lqa Lra Lia List.
Import ListNotations.

Set Warnings "-inexact-float".

(** ** Exceptions and the error monad *)

Inductive exn : Type :=
| ValueError (msg : string)
| TypeError (msg : string).

Inductive result (A : Type) : Type :=
| Ok (a : A)
| Raise (e : exn).
Arguments Ok {A} a.
Arguments Raise {A} e.

Definition bind {A B : Type} (m : result A) (k : A -> result B) : result B :=
  match m with
  | Ok a => k a
  | Raise e => Raise e
  end.

Notation "x <- m ;; k" := (bind m (fun x => k))
  (at level 61, m at next level, right associativity).

Definition raises {A : Type} (m : result A) : bool :=
  match m with
  | Ok _ => false
  | Raise _ => true
  end.

(** ** Python floats that may be NaN *)

Inductive pyfloat : Type :=
| NaN
| Val (r : R).

Definition Rltb (a b : R) : bool := if Rlt_dec a b then true else false.

(** ** The risk flag and the classifier

    The thresholds compare scores; the comparison is the one of the score
    type.  Two score types are used: binary64 floats ([PrimFloat.float],
    what CPython compares) and [pyfloat] (what the estimators of this model
    return). *)

Inductive RiskFlag : Type :=
| latent
| blocked_flow
| chaotic_memory
| structural_time_bomb.

Definition RiskFlag_eqb (a b : RiskFlag) : bool :=
  match a, b with
  | latent, latent => true
  | blocked_flow, blocked_flow => true
  | chaotic_memory, chaotic_memory => true
  | structural_time_bomb, structural_time_bomb => true
  | _, _ => false
  end.

Class Score (F : Type) : Type := {
  gt : F -> F -> bool;      (* Python [a > b] *)
  lt : F -> F -> bool;      (* Python [a < b] *)
  lit_0_5 : F;
  lit_0_9 : F;
  lit_0_05 : F
}.

#[export] Instance Score_float : Score float := {
  gt a b := PrimFloat.ltb b a;
  lt a b := PrimFloat.ltb a b;
  lit_0_5 := 0.5%float;
  lit_0_9 := 0.9%float;
  lit_0_05 := 0.05%float
}.

Definition pyfloat_lt (a b : pyfloat) : bool :=
  match a, b with
  | Val x, Val y => Rltb x y
  | _, _ => false
  end.

#[export] Instance Score_pyfloat : Score pyfloat := {
  gt a b := pyfloat_lt b a;
  lt a b := pyfloat_lt a b;
  lit_0_5 := Val (5 / 10);
  lit_0_9 := Val (9 / 10);
  lit_0_05 := Val (5 / 100)
}.

(** Lines 73-79 of [detect_risk_factors]. *)
Definition classify {F : Type} `{Score F} (H_ent mi_norm hurst : F) : RiskFlag :=
  let risk_flag := latent in
  if gt hurst lit_0_5 && gt H_ent lit_0_9 && lt mi_norm lit_0_05 then
    structural_time_bomb
  else if gt hurst lit_0_5 && gt H_ent lit_0_9 then
    chaotic_memory
  else if lt mi_norm lit_0_05 then
    blocked_flow
  else risk_flag.

(** The decision list of the specification: the label of the first rule
    whose condition holds, the default when none does. *)
Fixpoint first_match (rules : list (bool * RiskFlag)) (default : RiskFlag) : RiskFlag :=
  match rules with
  | [] => default
  | (c, l) :: rest => if c then l else first_match rest default
  end.

Definition spec_rules {F : Type} `{Score F} (entropy mutual_information hurst : F)
  : list (bool * RiskFlag) :=
  [ (gt hurst lit_0_5 && gt entropy lit_0_9 && lt mutual_information lit_0_05,
     structural_time_bomb);
    (gt hurst lit_0_5 && gt entropy lit_0_9, chaotic_memory);
    (lt mutual_information lit_0_05, blocked_flow) ].

(** ** numpy primitives on rational samples *)

Definition Qsum (l : list Q) : Q := fold_right Qplus (0%Q) l.

Definition Qlen (l : list Q) : Q := inject_Z (Z.of_nat (length l)).

(** [np.mean]; on the empty array numpy gives nan, which the source only
    ever subtracts from the elements of that same empty array. *)
Definition np_mean (l : list Q) : Q := (Qsum l / Qlen l)%Q.

Definition Qmin (a b : Q) : Q := if Qle_bool a b then a else b.
Definition Qmax (a b : Q) : Q := if Qle_bool a b then b else a.

Definition np_min (v : Q) (rest : list Q) : Q := fold_left Qmin rest v.
Definition np_max (v : Q) (rest : list Q) : Q := fold_left Qmax rest v.

(** Population variance, the square of [np.std]. *)
Definition variance (l : list Q) : Q :=
  let m := np_mean l in
  np_mean (map (fun v => (v - m) * (v - m))%Q l).

(** [np.std]: nan on the empty array. *)
Definition np_std (l : list Q) : pyfloat :=
  match l with
  | [] => NaN
  | _ => Val (sqrt (Q2R (variance l)))
  end.

(** [np.allclose(a, 0)] with the default tolerances:
    [|a - 0| <= atol + rtol * |0|], false when [a] is nan. *)
Definition atol : R := (1 / 10 ^ 8)%R.
Definition rtol : R := (1 / 10 ^ 5)%R.

Definition allclose_0 (a : pyfloat) : bool :=
  match a with
  | NaN => false
  | Val r => negb (Rltb (atol + rtol * Rabs 0) (Rabs (r - 0)))
  end.

(** [numpy.histogram]'s range: [(0, 1)] for an empty array, the observed
    [(min, max)] otherwise, widened by one half on each side when both
    coincide. *)
Definition outer_edges (a : list Q) : Q * Q :=
  match a with
  | [] => (0%Q, 1%Q)
  | v :: rest =>
      let first_edge := np_min v rest in
      let last_edge := np_max v rest in
      if Qeq_bool first_edge last_edge
      then ((first_edge - (1 # 2))%Q, (last_edge + (1 # 2))%Q)
      else (first_edge, last_edge)
  end.

(** The bin of a value among [n] equal-width bins of [[lo, hi]]: every bin
    is half-open on the right except the last, which holds [hi] too. *)
Definition bin_index (lo hi : Q) (n : Z) (v : Q) : Z :=
  let k := Qfloor ((v - lo) / (hi - lo) * inject_Z n)%Q in
  if (k =? n)%Z then (n - 1)%Z else k.

Definition zrange (n : Z) : list Z := map Z.of_nat (seq 0 (Z.to_nat n)).

Definition count_if {A : Type} (f : A -> bool) (l : list A) : nat :=
  length (filter f l).

Definition bins_must_be_positive : exn :=
  ValueError "`bins` must be positive, when an integer".

(** [counts, _ = np.histogram(a, bins=bins)] for an integer [bins]. *)
Definition histogram (a : list Q) (bins : Z) : result (list nat) :=
  if (bins <? 1)%Z then Raise bins_must_be_positive
  else
    let '(lo, hi) := outer_edges a in
    Ok (map (fun k => count_if (fun v => (bin_index lo hi bins v =? k)%Z) a)
            (zrange bins)).

(** [counts_xy, _, _ = np.histogram2d(x, y, bins=(bins, bins))]: row [i],
    column [j] counts the positions whose [x] falls in bin [i] and whose [y]
    falls in bin [j]. *)
Definition histogram2d (x y : list Q) (bins : Z) : result (list (list nat)) :=
  if negb (length x =? length y)%nat
  then Raise (ValueError "x and y must have the same length.")
  else if (bins <? 1)%Z then Raise bins_must_be_positive
  else
    let '(lox, hix) := outer_edges x in
    let '(loy, hiy) := outer_edges y in
    Ok (map (fun i =>
               map (fun j =>
                      count_if (fun xy => (bin_index lox hix bins (fst xy) =? i)%Z
                                          && (bin_index loy hiy bins (snd xy) =? j)%Z)
                               (combine x y))
                   (zrange bins))
            (zrange bins)).

Definition ravel {A : Type} (m : list (list A)) : list A := concat m.

(** ** Entropy of a vector of counts *)

Definition log2 (v : R) : R := (ln v / ln 2)%R.

Definition Rsum (l : list R) : R := fold_right Rplus 0%R l.

(** The local function [H] of [_mutual_information_norm]; lines 9-11 of
    [_shannon_entropy] are the same three statements.  When the counts sum
    to zero every quotient is nan in numpy and none passes [p > 0]; here the
    quotient is [0], with the same effect. *)
Definition H (counts : list nat) : R :=
  let p := map (fun c => (INR c / INR (list_sum counts))%R) counts in
  let p := filter (fun v => Rltb 0 v) p in
  (- Rsum (map (fun v => v * log2 v) p))%R.

(** ** The entropy estimator *)

Definition tiny : Q := 1 # (10 ^ 12).

Fixpoint add_noise (randn : nat -> Q) (i : nat) (x : list Q) : list Q :=
  match x with
  | [] => []
  | v :: rest => (v + tiny * randn i)%Q :: add_noise randn (S i) rest
  end.

(** [randn] is the stream of draws of [np.random.randn]. *)
Definition _shannon_entropy (randn : nat -> Q) (x : list Q) (bins : Z)
    (normalize : bool) : result pyfloat :=
  let x := if allclose_0 (np_std x) then add_noise randn 0 x else x in
  counts <- histogram x bins ;;
  let Hv := H counts in
  if negb normalize then Ok (Val Hv)
  else
    let Hmax := log2 (INR (length counts)) in
    Ok (if Rltb 0 Hmax then Val (Hv / Hmax) else NaN).

(** ** The mutual-information estimator *)

Definition _mutual_information_norm (x y : list Q) (bins : Z) : result pyfloat :=
  counts_x <- histogram x bins ;;
  counts_y <- histogram y bins ;;
  counts_xy <- histogram2d x y bins ;;
  let Hx := H counts_x in
  let Hy := H counts_y in
  let Hxy := H (ravel counts_xy) in
  let MI := (Hx + Hy - Hxy)%R in
  Ok (if Rltb 0 Hx then Val (MI / Hx) else NaN).

(** ** Python slices *)

(** The index normalisation of a slice bound: a negative bound counts from
    the end, and every bound is clamped to [[0, len]]. *)
Definition norm_index (len k : Z) : Z :=
  if (k <? 0)%Z then Z.max (k + len) 0 else Z.min k len.

(** [l[i:j]] *)
Definition slice {A : Type} (l : list A) (i j : Z) : list A :=
  let len := Z.of_nat (length l) in
  let i' := Z.to_nat (norm_index len i) in
  let j' := Z.to_nat (norm_index len j) in
  firstn (j' - i') (skipn i' l).

(** [l[i:]] *)
Definition slice_from {A : Type} (l : list A) (i : Z) : list A :=
  skipn (Z.to_nat (norm_index (Z.of_nat (length l)) i)) l.

(** [l[:j]] *)
Definition slice_to {A : Type} (l : list A) (j : Z) : list A :=
  firstn (Z.to_nat (norm_index (Z.of_nat (length l)) j)) l.

(** ** The window sizes of the Hurst estimator *)

(** The result of casting nan to a 64-bit integer (the x86-64 value). *)
Definition nan_as_int : Z := (- 2 ^ 63)%Z.

(** The largest [k] in [[0, fuel]] with [k ^ 9 <= r]. *)
Fixpoint root9_below (fuel : nat) (r : Z) : Z :=
  match fuel with
  | O => 0%Z
  | S f => if (Z.of_nat fuel ^ 9 <=? r)%Z then Z.of_nat fuel else root9_below f r
  end.

Definition floor_root9 (bound r : Z) : Z := root9_below (Z.to_nat bound) r.

(** Entry [i] of
    [np.floor(np.logspace(np.log10(min_window), np.log10(max_window), num=10)).astype(int)],
    in exact arithmetic.  For positive bounds the [i]-th point is
    [min_window ^ ((9 - i) / 9) * max_window ^ (i / 9)], whose floor is the
    integer ninth root of [min_window ^ (9 - i) * max_window ^ i].  The
    binary64 value of a point that is an integer in exact arithmetic may
    fall just below it, and its floor is then one less than the entry given
    here (for [N = 500] the last entry of the program is 249, not 250);
    the general theorems on the loop below hold whatever the sizes are.  A
    bound that is zero or negative has logarithm [-inf] or nan: [linspace]
    then yields nan or [-inf] at every point but the last, which is set to
    the stop value itself; [10 ** -inf] is [0] and nan casts to
    [nan_as_int]. *)
Definition size_at (min_window max_window : Z) (i : nat) : Z :=
  if (i =? 9)%nat then (if (0 <? max_window)%Z then max_window else 0%Z)
  else if (0 <? min_window)%Z && (0 <? max_window)%Z then
    floor_root9 (Z.max min_window max_window)
                (min_window ^ (9 - Z.of_nat i) * max_window ^ Z.of_nat i)%Z
  else if (0 <? min_window)%Z then (if (i =? 0)%nat then nan_as_int else 0%Z)
  else nan_as_int.

Definition window_sizes (min_window N : Z) : list Z :=
  let max_window := (N / 2)%Z in
  map (size_at min_window max_window) (seq 0 10).

(** ** Rescaled range of one segment *)

Fixpoint cumsum_from (acc : Q) (l : list Q) : list Q :=
  match l with
  | [] => []
  | v :: rest => (acc + v)%Q :: cumsum_from (acc + v)%Q rest
  end.

Definition cumsum (l : list Q) : list Q := cumsum_from 0%Q l.

Definition zero_size_reduction : exn :=
  ValueError "zero-size array to reduction operation which has no identity".

Definition np_max_of (l : list Q) : result Q :=
  match l with
  | [] => Raise zero_size_reduction
  | v :: rest => Ok (np_max v rest)
  end.

Definition np_min_of (l : list Q) : result Q :=
  match l with
  | [] => Raise zero_size_reduction
  | v :: rest => Ok (np_min v rest)
  end.

(** Lines 52-56: the values the segment appends to [rs_vals]. *)
Definition segment_rs (seg : list Q) : result (list R) :=
  let Y := cumsum (map (fun v => v - np_mean seg)%Q seg) in
  hi <- np_max_of Y ;;
  lo <- np_min_of Y ;;
  let R := (hi - lo)%Q in
  match np_std seg with
  | Val sd => Ok (if Rltb 0 sd then [(Q2R R / sd)%R] else [])
  | NaN => Ok []
  end.

(** A [for] loop that appends to a list and stops at the first exception. *)
Fixpoint for_each {A B : Type} (body : A -> result (list B)) (l : list A)
  : result (list B) :=
  match l with
  | [] => Ok []
  | a :: rest =>
      out <- body a ;;
      outs <- for_each body rest ;;
      Ok (out ++ outs)
  end.

Definition Rmean (l : list R) : R := (Rsum l / INR (length l))%R.

(** Lines 48-50: [x] is the centred series. *)
Definition rs_vals_of (x : list Q) (w : Z) : result (list R) :=
  let N := Z.of_nat (length x) in
  let n_seg := (N / w)%Z in
  for_each (fun i => segment_rs (slice x (i * w) ((i + 1) * w))) (zrange n_seg).

(** Lines 48-58: what a window size that is processed appends to [RS]. *)
Definition window_body (x : list Q) (w : Z) : result (list (Z * R)) :=
  rs_vals <- rs_vals_of x w ;;
  Ok (match rs_vals with
      | [] => []
      | _ => [(w, Rmean rs_vals)]
      end).

(** Lines 46-58: one iteration of the loop over [sizes]. *)
Definition window_RS (x : list Q) (w : Z) : result (list (Z * R)) :=
  if (w <? 2)%Z then Ok []       (* continue *)
  else window_body x w.

(** The window sizes whose iteration gets past the [continue], in the order
    of the loop. *)
Definition processed_windows (min_window N : Z) : list Z :=
  filter (fun w => negb (w <? 2)%Z) (window_sizes min_window N).

(** The series after line 39. *)
Definition centred (x : list Q) : list Q := map (fun v => v - np_mean x)%Q x.

Section Core.

(** The slope returned by [np.polyfit(xs, ys, 1)], a library routine that
    is not part of the repository. *)
Variable polyfit_slope : list R -> list R -> result pyfloat.

(** The draws of [np.random.randn]. *)
Variable randn : nat -> Q.

Definition _hurst_exponent_rs (x : list Q) (min_window : Z) : result pyfloat :=
  let x := centred x in
  let N := Z.of_nat (length x) in
  let sizes := window_sizes min_window N in
  RS <- for_each (window_RS x) sizes ;;
  match RS with
  | [] => Ok NaN
  | _ =>
      let w_arr := map fst RS in
      let rs_arr := map snd RS in
      polyfit_slope (map (fun w => ln (IZR w)) w_arr) (map ln rs_arr)
  end.

Record RiskResult : Type := {
  entropy : pyfloat;
  mi_norm : pyfloat;
  hurst : pyfloat;
  risk_flag : RiskFlag
}.

Definition detect_risk_factors (returns : list Q) (bins mi_lag : Z)
  : result RiskResult :=
  H_ent <- _shannon_entropy randn returns bins true ;;
  mi <- _mutual_information_norm (slice_from returns mi_lag)
                                 (slice_to returns (- mi_lag)) bins ;;
  h <- _hurst_exponent_rs returns 16 ;;
  Ok {| entropy := H_ent; mi_norm := mi; hurst := h;
        risk_flag := classify H_ent mi h |}.

(** *** Calling the entry point

    [def detect_risk_factors(returns, bins=30, mi_lag=1)]: the series is
    passed positionally, the configuration by keyword.  A keyword that is
    not a parameter of the function raises [TypeError]. *)
Definition unexpected_keyword : exn :=
  TypeError "detect_risk_factors() got an unexpected keyword argument".

Fixpoint bind_keywords (kwargs : list (string * Z)) (bins mi_lag : Z)
  : result (Z * Z) :=
  match kwargs with
  | [] => Ok (bins, mi_lag)
  | (name, v) :: rest =>
      if String.eqb name "bins" then bind_keywords rest v mi_lag
      else if String.eqb name "mi_lag" then bind_keywords rest bins v
      else Raise unexpected_keyword
  end.

Definition call_detect_risk_factors (returns : list Q) (kwargs : list (string * Z))
  : result RiskResult :=
  args <- bind_keywords kwargs 30 1 ;;
  detect_risk_factors returns (fst args) (snd args).

End Core.

(** ** A concrete instance of the library routines

    The ordinary least-squares slope, which is what [np.polyfit(xs, ys, 1)]
    returns when the abscissae are not all equal, and a noise source that
    draws zeros.  They instantiate the section variables in closed
    statements. *)
Definition ols_slope (xs ys : list R) : result pyfloat :=
  let mx := Rmean xs in
  let my := Rmean ys in
  let sxy := Rsum (map (fun p => (fst p - mx) * (snd p - my))%R (combine xs ys)) in
  let sxx := Rsum (map (fun v => (v - mx) * (v - mx))%R xs) in
  Ok (Val (sxy / sxx)).

Definition no_noise : nat -> Q := fun _ => 0%Q.

(** The affine transform [v |-> a * v + b]. *)
Definition affine (a b : Q) (v : Q) : Q := (a * v + b)%Q.

(** The occupied bins of a histogram, in order; nothing when it raised. *)
Definition occupied (m : result (list nat)) : list nat :=
  match m with
  | Ok counts => filter (fun c => negb (c =? 0)%nat) counts
  | Raise _ => []
  end.

Definition occupied2d (m : result (list (list nat))) : list nat :=
  match m with
  | Ok counts => filter (fun c => negb (c =? 0)%nat) (ravel counts)
  | Raise _ => []
  end.

(** The contribution of one bin to the entropy, [T] being the total count. *)
Definition Hterm (T : R) (c : nat) : R :=
  if Rltb 0 (INR c / T) then (- (INR c / T * log2 (INR c / T)))%R else 0%R.

(** A field of the result record, when there is one. *)
Definition field {A B : Type} (f : A -> B) (m : result A) : result B :=
  a <- m ;; Ok (f a).

(** ** Bin edges in binary64

    [numpy.linspace(start, stop, n + 1)] computes its [k]-th point as
    [k * step + start] with [step = (stop - start) / n]; [numpy.histogram]
    puts a value [v] in bin [k] when [edges[k] <= v < edges[k + 1]].  These
    two definitions are used only to exhibit the effect of rounding on a
    transformed sample; the estimators above work in exact arithmetic. *)

Definition linspace64 (start stop n k : float) : float :=
  (k * ((stop - start) / n) + start)%float.

Definition in_bin64 (start stop n k v : float) : bool :=
  PrimFloat.leb (linspace64 start stop n k) v
  && PrimFloat.ltb v (linspace64 start stop n (k + 1)%float).

(** ** The normalised mutual information in the words of the specification

    Sections 3 and 4.2 of the specification: a histogram partitions the
    observed range into equal-width buckets and counts the occupants of
    each; the joint histogram does so for the aligned pairs, with the same
    number of buckets on each axis; the entropy of a histogram is
    [- sum p * log2 p] over the buckets of non-zero probability, in bits;
    the result is [(H(x) + H(y) - H(x,y)) / H(x)], undefined when
    [H(x) = 0].  Of the model of the code these definitions use the
    counting function, the logarithm and the pair [outer_edges], which
    [spec_observed_range] describes. *)

(** The observed range of a sample runs from its smallest to its largest
    value.  When all values are equal numpy widens it by one half on each
    side, and the range of the empty sample is [[0, 1]]. *)
Definition spec_observed_range (a : list Q) (lo hi : Q) : Prop :=
  match a with
  | [] => lo = 0%Q /\ hi = 1%Q
  | c :: _ =>
      (forall v, In v a -> (lo <= v <= hi)%Q) /\
      ((In lo a /\ In hi a /\ (lo < hi)%Q) \/
       ((forall v, In v a -> (v == c)%Q) /\
        (lo == c - (1 # 2))%Q /\ (hi == c + (1 # 2))%Q))
  end.

(** The [k]-th of the [n + 1] equally spaced edges of [[lo, hi]]. *)
Definition spec_edge (lo hi : Q) (n k : Z) : Q :=
  (lo + (hi - lo) * inject_Z k / inject_Z n)%Q.

(** Bucket [k] holds the values from its left edge up to, but not
    including, its right edge; the last bucket holds the right end of the
    range as well. *)
Definition spec_in_bucket (lo hi : Q) (n k : Z) (v : Q) : bool :=
  Qle_bool (spec_edge lo hi n k) v
  && (negb (Qle_bool (spec_edge lo hi n (k + 1)) v)
      || ((k =? n - 1)%Z && Qle_bool v hi)).

Definition spec_histogram (a : list Q) (n : Z) : list nat :=
  let '(lo, hi) := outer_edges a in
  map (fun k => count_if (spec_in_bucket lo hi n k) a) (zrange n).

(** The joint histogram, row by row. *)
Definition spec_joint_histogram (x y : list Q) (n : Z) : list nat :=
  let '(lox, hix) := outer_edges x in
  let '(loy, hiy) := outer_edges y in
  flat_map (fun i =>
              map (fun j =>
                     count_if (fun xy => spec_in_bucket lox hix n i (fst xy)
                                         && spec_in_bucket loy hiy n j (snd xy))
                              (combine x y))
                  (zrange n))
           (zrange n).

Definition spec_entropy_bits (counts : list nat) : R :=
  let total := INR (list_sum counts) in
  Rsum (map (fun c => if (c =? 0)%nat then 0%R
                      else (- (INR c / total * log2 (INR c / total)))%R)
            counts).

Definition spec_normalized_mutual_information (x y : list Q) (n : Z) : pyfloat :=
  let Hx := spec_entropy_bits (spec_histogram x n) in
  let Hy := spec_entropy_bits (spec_histogram y n) in
  let Hxy := spec_entropy_bits (spec_joint_histogram x y n) in
  if Req_dec_T Hx 0 then NaN else Val ((Hx + Hy - Hxy) / Hx).

(** ** The callers: [run_risk_analysis.py] and [analyze_single_stock.py]

    In Python the flag is a string; [flag_name] gives the string of each
    value of [RiskFlag]. *)

Definition flag_name (f : RiskFlag) : string :=
  match f with
  | latent => "latent"%string
  | blocked_flow => "blocked_flow"%string
  | chaotic_memory => "chaotic_memory"%string
  | structural_time_bomb => "structural_time_bomb"%string
  end.

(** The severity line printed for a flag ([analyze_stock_risk], lines 75-88,
    and [analyze_stock], lines 56-75), without its leading symbol. *)
Definition risk_headline (flag : string) : string :=
  if String.eqb flag "structural_time_bomb"%string then "HIGH RISK: Structural time bomb detected!"%string
  else if String.eqb flag "chaotic_memory"%string then "MEDIUM RISK: Chaotic memory detected!"%string
  else if String.eqb flag "blocked_flow"%string then "MEDIUM RISK: Blocked flow detected!"%string
  else "LOW RISK: Latent risk factors"%string.

(** The three "additional insights" of [analyze_stock] (lines 83-102),
    without the leading bullet. *)
Definition persistence_insight (hurst : pyfloat) : string :=
  if pyfloat_lt (Val (6 / 10)) hurst
  then "High persistence: Current trends likely to continue"%string
  else if pyfloat_lt hurst (Val (4 / 10))
  then "Low persistence: Mean-reverting behavior likely"%string
  else "Moderate persistence: Mixed trend/mean-reversion behavior"%string.

Definition entropy_insight (entropy : pyfloat) : string :=
  if pyfloat_lt (Val (8 / 10)) entropy
  then "High entropy: Very unpredictable price movements"%string
  else if pyfloat_lt entropy (Val (5 / 10))
  then "Low entropy: More predictable price movements"%string
  else "Moderate entropy: Balanced predictability"%string.

Definition mi_insight (mi_norm : pyfloat) : string :=
  if pyfloat_lt mi_norm (Val (1 / 10))
  then "Low mutual information: Weak correlation between past and future"%string
  else if pyfloat_lt (Val (2 / 10)) mi_norm
  then "High mutual information: Strong correlation between past and future"%string
  else "Moderate mutual information: Balanced correlation"%string.

(** [plot_risk_analysis], line 117: the colour of a metric bar. *)
Definition metric_colour (v : pyfloat) : string :=
  if pyfloat_lt v (Val (5 / 10)) then "green"%string
  else if pyfloat_lt v (Val (8 / 10)) then "orange"%string
  else "red"%string.

(** [dict.get(key, default)] on a dictionary given by its items. *)
Fixpoint dict_get {V : Type} (d : list (string * V)) (key : string) (default : V) : V :=
  match d with
  | [] => default
  | (k, v) :: rest => if String.eqb k key then v else dict_get rest key default
  end.

(** [l[i]] for a Python list: a negative index counts from the end, an
    index outside the list raises [IndexError] ([None]). *)
Definition py_index {A : Type} (l : list A) (i : Z) : option A :=
  let len := Z.of_nat (length l) in
  let i' := if (i <? 0)%Z then (i + len)%Z else i in
  if (i' <? 0)%Z || (len <=? i')%Z then None else nth_error l (Z.to_nat i').

(** [plot_risk_analysis], lines 141-157. *)
Definition risk_levels : list (string * Z) :=
  [("latent"%string, 1); ("blocked_flow"%string, 2); ("chaotic_memory"%string, 3);
   ("structural_time_bomb"%string, 4)]%Z.

Definition risk_colors : list string := ["green"%string; "orange"%string; "orange"%string; "red"%string].
Definition risk_labels : list string := ["Low"%string; "Medium"%string; "Medium"%string; "High"%string].

Definition risk_level (flag : string) : Z := dict_get risk_levels flag 0%Z.

Definition risk_bar_colour (flag : string) : option string :=
  py_index risk_colors (risk_level flag - 1).

Definition risk_bar_label (flag : string) : option string :=
  py_index risk_labels (risk_level flag - 1).

(** [main] of [run_risk_analysis.py], lines 195-201: [all_results] is the
    dictionary of the results by ticker, in insertion order. *)
Definition in_strings (s : string) (l : list string) : bool :=
  existsb (String.eqb s) l.

Definition high_risk (all_results : list (string * RiskResult)) : list string :=
  map fst
      (filter (fun item =>
                 in_strings (flag_name (risk_flag (snd item)))
                            ["structural_time_bomb"%string; "chaotic_memory"%string])
              all_results).

(** The last line of the summary, without its leading symbol; nothing is
    printed when [all_results] is empty. *)
Definition summary_line (all_results : list (string * RiskResult)) : option string :=
  match all_results with
  | [] => None
  | _ =>
      Some (match high_risk all_results with
            | [] => "All analyzed stocks show low risk levels"%string
            | stocks =>
                String.append "High Risk Stocks: "%string
                              (String.concat ", "%string stocks)
            end)
  end.

(** ** [calculate_returns] ([run_risk_analysis.py], lines 28-39)

    A price series is a [list Q].  A return may be infinite or nan, because
    pandas divides by a zero price without raising. *)

Inductive xfloat : Type :=
| XNaN
| XInf (positive : bool)
| XFin (q : Q).

(** [cur / prev - 1] as floating point computes it. *)
Definition pct (prev cur : Q) : xfloat :=
  if Qeq_bool prev 0 then
    if Qeq_bool cur 0 then XNaN            (* 0 / 0 *)
    else XInf (Qle_bool 0 cur)             (* cur / 0 *)
  else XFin (cur / prev - 1)%Q.

Fixpoint pct_from (prev : Q) (l : list Q) : list xfloat :=
  match l with
  | [] => []
  | cur :: rest => pct prev cur :: pct_from cur rest
  end.

(** [Series.pct_change()]: the first entry has no predecessor. *)
Definition pct_change (prices : list Q) : list xfloat :=
  match prices with
  | [] => []
  | first :: rest => XNaN :: pct_from first rest
  end.

(** [Series.dropna()]: an infinite value is not missing. *)
Definition dropna (l : list xfloat) : list xfloat :=
  filter (fun v => match v with XNaN => false | _ => true end) l.

Definition calculate_returns (prices : list Q) : list xfloat :=
  dropna (pct_change prices).

(** * Theorems *)

(** ** Comparisons of reals *)

Lemma Rltb_true (a b : R) : Rltb a b = true <-> (a < b)%R.
Proof. unfold Rltb. destruct (Rlt_dec a b); split; intros; auto; discriminate. Qed.

Lemma Rltb_false (a b : R) : Rltb a b = false <-> (b <= a)%R.
Proof.
  unfold Rltb. destruct (Rlt_dec a b); split; intros; auto; try discriminate; lra.
Qed.

(** ** The classifier *)

(** C1: for every triple of scores the classifier returns the label of the
    first matching rule of the decision list (strict comparisons), each label
    is returned exactly under its own condition, and the three sample triples
    are labelled structural_time_bomb, blocked_flow and latent; a score
    exactly on a threshold does not pass it. *)
Theorem C1_classify_first_match :
  (forall (F : Type) (S : Score F) (e m h : F),
      let high := gt h lit_0_5 && gt e lit_0_9 in
      let low := lt m lit_0_05 in
      classify e m h = first_match (spec_rules e m h) latent /\
      RiskFlag_eqb (classify e m h) structural_time_bomb = high && low /\
      RiskFlag_eqb (classify e m h) chaotic_memory = high && negb low /\
      RiskFlag_eqb (classify e m h) blocked_flow = negb high && low /\
      RiskFlag_eqb (classify e m h) latent = negb high && negb low) /\
  classify 0.95%float 0.01%float 0.6%float = structural_time_bomb /\
  classify 0.95%float 0.01%float 0.4%float = blocked_flow /\
  classify 0.2%float 0.3%float 0.2%float = latent /\
  classify 0.9%float 0.05%float 0.6%float = latent /\
  classify 0.95%float 0.05%float 0.5%float = latent /\
  classify (Val (95 / 100)) (Val (1 / 100)) (Val (6 / 10)) = structural_time_bomb /\
  classify (Val (95 / 100)) (Val (1 / 100)) (Val (4 / 10)) = blocked_flow /\
  classify (Val (2 / 10)) (Val (3 / 10)) (Val (2 / 10)) = latent.
Proof.
  split.
  - intros F S e m h. unfold classify, spec_rules. cbn [first_match].
    destruct (gt h lit_0_5), (gt e lit_0_9), (lt m lit_0_05); cbn; repeat split.
  - repeat split; try (vm_compute; reflexivity);
      unfold classify; cbn [gt lt lit_0_5 lit_0_9 lit_0_05 Score_pyfloat pyfloat_lt].
    + assert (E1 : Rltb (5 / 10) (6 / 10) = true) by (apply Rltb_true; lra).
      assert (E2 : Rltb (9 / 10) (95 / 100) = true) by (apply Rltb_true; lra).
      assert (E3 : Rltb (1 / 100) (5 / 100) = true) by (apply Rltb_true; lra).
      rewrite E1, E2, E3. reflexivity.
    + assert (E1 : Rltb (5 / 10) (4 / 10) = false) by (apply Rltb_false; lra).
      assert (E3 : Rltb (1 / 100) (5 / 100) = true) by (apply Rltb_true; lra).
      rewrite E1, E3. reflexivity.
    + assert (E1 : Rltb (5 / 10) (2 / 10) = false) by (apply Rltb_false; lra).
      assert (E3 : Rltb (3 / 10) (5 / 100) = false) by (apply Rltb_false; lra).
      rewrite E1, E3. reflexivity.
Qed.

(** C2: a NaN score fails each of the three threshold comparisons, on
    binary64 floats and on the scores of the estimators alike; a NaN hurst or
    entropy leaves only blocked_flow or latent, a NaN mutual information only
    chaotic_memory or latent, and three NaN scores give latent.  The
    classifier is a total function, so no input raises. *)
Theorem C2_classify_nan :
  (gt PrimFloat.nan lit_0_5 = false /\ gt PrimFloat.nan lit_0_9 = false /\
   lt PrimFloat.nan lit_0_05 = false) /\
  (gt NaN lit_0_5 = false /\ gt NaN lit_0_9 = false /\ lt NaN lit_0_05 = false) /\
  (forall e m : float,
      classify e m PrimFloat.nan = if lt m lit_0_05 then blocked_flow else latent) /\
  (forall m h : float,
      classify PrimFloat.nan m h = if lt m lit_0_05 then blocked_flow else latent) /\
  (forall e h : float,
      classify e PrimFloat.nan h
      = if gt h lit_0_5 && gt e lit_0_9 then chaotic_memory else latent) /\
  (forall e m : pyfloat,
      classify e m NaN = if lt m lit_0_05 then blocked_flow else latent) /\
  (forall m h : pyfloat,
      classify NaN m h = if lt m lit_0_05 then blocked_flow else latent) /\
  (forall e h : pyfloat,
      classify e NaN h
      = if gt h lit_0_5 && gt e lit_0_9 then chaotic_memory else latent) /\
  classify PrimFloat.nan PrimFloat.nan PrimFloat.nan = latent /\
  classify NaN NaN NaN = latent.
Proof.
  assert (F1 : gt PrimFloat.nan lit_0_5 = false) by (vm_compute; reflexivity).
  assert (F2 : gt PrimFloat.nan lit_0_9 = false) by (vm_compute; reflexivity).
  assert (F3 : lt PrimFloat.nan lit_0_05 = false) by (vm_compute; reflexivity).
  assert (A1 : forall e m : float,
             classify e m PrimFloat.nan = if lt m lit_0_05 then blocked_flow else latent).
  { intros e m. unfold classify. rewrite F1. reflexivity. }
  assert (A2 : forall m h : float,
             classify PrimFloat.nan m h = if lt m lit_0_05 then blocked_flow else latent).
  { intros m h. unfold classify. rewrite F2, andb_false_r. reflexivity. }
  assert (A3 : forall e h : float,
             classify e PrimFloat.nan h
             = if gt h lit_0_5 && gt e lit_0_9 then chaotic_memory else latent).
  { intros e h. unfold classify. rewrite F3, andb_false_r.
    destruct (gt h lit_0_5 && gt e lit_0_9); reflexivity. }
  assert (B1 : forall e m : pyfloat,
             classify e m NaN = if lt m lit_0_05 then blocked_flow else latent).
  { intros e m. reflexivity. }
  assert (B2 : forall m h : pyfloat,
             classify NaN m h = if lt m lit_0_05 then blocked_flow else latent).
  { intros m h. unfold classify. cbn [gt Score_pyfloat pyfloat_lt lit_0_9].
    rewrite andb_false_r. reflexivity. }
  assert (B3 : forall e h : pyfloat,
             classify e NaN h
             = if gt h lit_0_5 && gt e lit_0_9 then chaotic_memory else latent).
  { intros e h. unfold classify. cbn [lt Score_pyfloat pyfloat_lt lit_0_05].
    rewrite andb_false_r.
    destruct (gt h lit_0_5 && gt e lit_0_9); reflexivity. }
  repeat split; try assumption; reflexivity.
Qed.

(** ** Entropy of a count vector lies between 0 and the logarithm of its length *)

Lemma ln2_pos : (0 < ln 2)%R.
Proof. rewrite <- ln_1. apply ln_increasing; lra. Qed.

Lemma ln_le_pred (y : R) : (0 < y)%R -> (ln y <= y - 1)%R.
Proof.
  intros Hy. pose proof (exp_ineq1_le (ln y)) as E.
  rewrite exp_ln in E by assumption. lra.
Qed.

Lemma In_le_list_sum (c : nat) (l : list nat) : In c l -> (c <= list_sum l)%nat.
Proof.
  induction l as [|d l IH]; simpl; intros Hin; [contradiction|].
  destruct Hin as [->|Hin]; [lia|]. specialize (IH Hin). lia.
Qed.

Lemma Rsum_INR (l : list nat) : Rsum (map INR l) = INR (list_sum l).
Proof.
  induction l as [|c l IH]; simpl; [reflexivity|].
  rewrite plus_INR, IH. reflexivity.
Qed.

Lemma H_as_terms (counts : list nat) :
  H counts = Rsum (map (Hterm (INR (list_sum counts))) counts).
Proof.
  unfold H. generalize (INR (list_sum counts)) as T. intros T.
  induction counts as [|c l IH]; simpl; [lra|].
  unfold Hterm at 1. destruct (Rltb 0 (INR c / T)); simpl; rewrite <- IH; lra.
Qed.

Lemma Hterm_nonneg (T : R) (c : nat) :
  (0 < T)%R -> (INR c <= T)%R -> (0 <= Hterm T c)%R.
Proof.
  intros HT Hc. unfold Hterm.
  destruct (Rltb 0 (INR c / T)) eqn:E; [|lra].
  apply Rltb_true in E.
  assert (Hp : (INR c / T <= 1)%R).
  { apply (Rmult_le_reg_r T); [assumption|]. unfold Rdiv.
    rewrite Rmult_assoc, Rinv_l by lra. lra. }
  assert (Hl : (ln (INR c / T) <= 0)%R).
  { rewrite <- ln_1. destruct Hp as [Hp|Hp].
    - left. apply ln_increasing; assumption.
    - rewrite Hp. lra. }
  unfold log2. pose proof ln2_pos as L2.
  assert (Hq : (ln (INR c / T) / ln 2 <= 0)%R).
  { unfold Rdiv. apply Rmult_le_reg_r with (r := ln 2); [assumption|].
    rewrite Rmult_assoc, Rinv_l by lra. lra. }
  nra.
Qed.

Lemma Hterm_upper (T : R) (n : R) (c : nat) :
  (0 < T)%R -> (0 < n)%R ->
  (Hterm T c <= INR c / T * log2 n + (1 / n - INR c / T) / ln 2)%R.
Proof.
  intros HT Hn. unfold Hterm. pose proof ln2_pos as L2.
  destruct (Rltb 0 (INR c / T)) eqn:E.
  - apply Rltb_true in E. set (p := (INR c / T)%R) in *.
    assert (Hnp : (0 < n * p)%R) by (apply Rmult_lt_0_compat; assumption).
    pose proof (ln_le_pred (1 / (n * p)) ltac:(apply Rdiv_lt_0_compat; lra)) as I.
    unfold Rdiv in I. rewrite Rmult_1_l, ln_Rinv, ln_mult in I by assumption.
    unfold log2.
    assert (K : (- (p * ln p) <= p * ln n + (1 / n - p))%R).
    { assert (M : (p * (- (ln n + ln p)) <= p * (/ (n * p) - 1))%R)
        by (apply Rmult_le_compat_l; lra).
      replace (p * (/ (n * p) - 1))%R with (1 / n - p)%R in M
        by (field; split; lra).
      lra. }
    apply (Rmult_le_reg_r (ln 2)); [assumption|].
    replace ((p * (ln n / ln 2) + (1 / n - p) / ln 2) * ln 2)%R
      with (p * ln n + (1 / n - p))%R by (field; lra).
    replace (- (p * (ln p / ln 2)) * ln 2)%R with (- (p * ln p))%R by (field; lra).
    exact K.
  - apply Rltb_false in E.
    assert (Z0 : (INR c / T = 0)%R).
    { assert (0 <= INR c / T)%R
        by (apply Rmult_le_pos; [apply pos_INR | left; apply Rinv_0_lt_compat; lra]).
      lra. }
    rewrite Z0.
    assert (0 < 1 / n)%R by (apply Rdiv_lt_0_compat; lra).
    assert (0 < (1 / n - 0) / ln 2)%R by (apply Rdiv_lt_0_compat; lra).
    lra.
Qed.

Lemma Rsum_Hterm_nonneg (T : R) (l : list nat) :
  (0 < T)%R -> (forall c, In c l -> (INR c <= T)%R) ->
  (0 <= Rsum (map (Hterm T) l))%R.
Proof.
  intros HT. induction l as [|c l IH]; simpl; intros Hall; [lra|].
  pose proof (Hterm_nonneg T c HT (Hall c (or_introl eq_refl))).
  assert (0 <= Rsum (map (Hterm T) l))%R by (apply IH; intros; apply Hall; auto).
  lra.
Qed.

Lemma Rsum_Hterm_upper (T n : R) (l : list nat) :
  (0 < T)%R -> (0 < n)%R ->
  (Rsum (map (Hterm T) l)
   <= INR (list_sum l) / T * log2 n
      + (INR (length l) / n - INR (list_sum l) / T) / ln 2)%R.
Proof.
  intros HT Hn. pose proof ln2_pos as L2.
  induction l as [|c l IH].
  - simpl. right. field. lra.
  - change (list_sum (c :: l)) with (c + list_sum l)%nat.
    change (Rsum (map (Hterm T) (c :: l)))
      with (Hterm T c + Rsum (map (Hterm T) l))%R.
    cbn [length]. rewrite plus_INR, S_INR.
    pose proof (Hterm_upper T n c HT Hn) as U.
    replace ((INR c + INR (list_sum l)) / T * log2 n
             + ((INR (length l) + 1) / n - (INR c + INR (list_sum l)) / T) / ln 2)%R
      with ((INR c / T * log2 n + (1 / n - INR c / T) / ln 2)
            + (INR (list_sum l) / T * log2 n
               + (INR (length l) / n - INR (list_sum l) / T) / ln 2))%R
      by (field; lra).
    lra.
Qed.

Lemma Hterm_zero_total (c : nat) : Hterm 0 c = 0%R.
Proof.
  unfold Hterm. unfold Rdiv. rewrite Rinv_0, Rmult_0_r.
  replace (Rltb 0 0) with false; [reflexivity|].
  symmetry. apply Rltb_false. lra.
Qed.

Lemma H_zero_total (counts : list nat) : list_sum counts = 0%nat -> H counts = 0%R.
Proof.
  intros Z0. rewrite H_as_terms, Z0. simpl INR.
  induction counts as [|c l IH]; simpl; [reflexivity|].
  rewrite Hterm_zero_total.
  assert (E : Rsum (map (Hterm 0) l) = 0%R).
  { clear. induction l as [|d l IH]; simpl; [reflexivity|].
    rewrite Hterm_zero_total, IH. lra. }
  rewrite E. lra.
Qed.

Lemma H_nonneg (counts : list nat) : (0 <= H counts)%R.
Proof.
  destruct (Nat.eq_dec (list_sum counts) 0) as [Z0|NZ].
  - rewrite H_zero_total by assumption. lra.
  - rewrite H_as_terms. apply Rsum_Hterm_nonneg.
    + apply lt_0_INR. lia.
    + intros c Hin. apply le_INR. apply In_le_list_sum. assumption.
Qed.

Lemma log2_nonneg (n : R) : (1 <= n)%R -> (0 <= log2 n)%R.
Proof.
  intros Hn. unfold log2. pose proof ln2_pos.
  assert (0 <= ln n)%R.
  { rewrite <- ln_1. destruct Hn as [Hn|Hn].
    - left. apply ln_increasing; lra.
    - rewrite <- Hn. lra. }
  apply Rmult_le_pos; [assumption|]. left. apply Rinv_0_lt_compat. assumption.
Qed.

Lemma log2_pos (n : R) : (1 < n)%R -> (0 < log2 n)%R.
Proof.
  intros Hn. unfold log2. pose proof ln2_pos.
  apply Rdiv_lt_0_compat; [|assumption].
  rewrite <- ln_1. apply ln_increasing; lra.
Qed.

Lemma H_le_log2_length (counts : list nat) :
  counts <> [] -> (H counts <= log2 (INR (length counts)))%R.
Proof.
  intros NE.
  assert (Hlen : (1 <= INR (length counts))%R).
  { destruct counts; [congruence|]. cbn [length]. rewrite S_INR.
    pose proof (pos_INR (length counts)). lra. }
  destruct (Nat.eq_dec (list_sum counts) 0) as [Z0|NZ].
  - rewrite H_zero_total by assumption. apply log2_nonneg. assumption.
  - assert (HT : (0 < INR (list_sum counts))%R) by (apply lt_0_INR; lia).
    rewrite H_as_terms.
    pose proof (Rsum_Hterm_upper (INR (list_sum counts)) (INR (length counts))
                  counts HT ltac:(lra)) as U.
    replace (INR (list_sum counts) / INR (list_sum counts))%R with 1%R in U
      by (field; lra).
    replace (INR (length counts) / INR (length counts))%R with 1%R in U
      by (field; lra).
    replace ((1 - 1) / ln 2)%R with 0%R in U by (unfold Rdiv; ring).
    lra.
Qed.

(** ** Histograms *)

Lemma zrange_length (n : Z) : length (zrange n) = Z.to_nat n.
Proof. unfold zrange. rewrite length_map, length_seq. reflexivity. Qed.

Lemma histogram_Ok (a : list Q) (bins : Z) :
  (1 <= bins)%Z ->
  exists counts, histogram a bins = Ok counts /\ length counts = Z.to_nat bins.
Proof.
  intros Hb. unfold histogram.
  destruct (bins <? 1)%Z eqn:E; [apply Z.ltb_lt in E; lia|].
  destruct (outer_edges a) as [lo hi]. eexists. split; [reflexivity|].
  rewrite length_map. apply zrange_length.
Qed.

Lemma histogram_Raise (a : list Q) (bins : Z) :
  (bins < 1)%Z -> histogram a bins = Raise bins_must_be_positive.
Proof.
  intros Hb. unfold histogram. apply Z.ltb_lt in Hb. rewrite Hb. reflexivity.
Qed.

Lemma histogram2d_Ok (x y : list Q) (bins : Z) :
  length x = length y -> (1 <= bins)%Z ->
  exists counts, histogram2d x y bins = Ok counts.
Proof.
  intros Hl Hb. unfold histogram2d.
  rewrite Hl, Nat.eqb_refl. cbn [negb].
  destruct (bins <? 1)%Z eqn:E; [apply Z.ltb_lt in E; lia|].
  destruct (outer_edges x) as [lox hix], (outer_edges y) as [loy hiy].
  eexists. reflexivity.
Qed.

Lemma histogram2d_length_mismatch (x y : list Q) (bins : Z) :
  length x <> length y ->
  histogram2d x y bins = Raise (ValueError "x and y must have the same length.").
Proof.
  intros Hl. unfold histogram2d. apply Nat.eqb_neq in Hl. rewrite Hl. reflexivity.
Qed.

(** ** The entropy estimator *)

Lemma shannon_entropy_normalized (randn : nat -> Q) (x : list Q) (bins : Z) :
  (1 <= bins)%Z ->
  exists counts,
    histogram (if allclose_0 (np_std x) then add_noise randn 0 x else x) bins
    = Ok counts /\
    length counts = Z.to_nat bins /\
    _shannon_entropy randn x bins true
    = Ok (if Rltb 0 (log2 (INR (length counts)))
          then Val (H counts / log2 (INR (length counts))) else NaN).
Proof.
  intros Hb. unfold _shannon_entropy.
  destruct (histogram_Ok (if allclose_0 (np_std x) then add_noise randn 0 x else x)
              bins Hb) as [counts [E L]].
  exists counts. rewrite E. cbn [bind negb]. repeat split; assumption.
Qed.

Lemma allclose_0_zero_variance (x : list Q) :
  x <> [] -> (variance x == 0)%Q -> allclose_0 (np_std x) = true.
Proof.
  intros NE V0. destruct x as [|v rest]; [congruence|].
  unfold np_std, allclose_0.
  rewrite (Qeq_eqR _ _ V0). unfold Q2R at 1. cbn [Qnum Qden].
  replace (0 * / IZR (Z.pos 1))%R with 0%R by ring.
  rewrite sqrt_0, Rminus_0_r, Rabs_R0.
  replace (Rltb (atol + rtol * 0) 0) with false; [reflexivity|].
  symmetry. apply Rltb_false. unfold atol, rtol.
  assert (0 < 1 / 10 ^ 8)%R by (apply Rdiv_lt_0_compat; [lra | apply pow_lt; lra]).
  lra.
Qed.

(** C3: with the default 30 bins and normalisation the entropy estimator
    returns, for every sample of at least two elements and every draw of the
    noise, a real number between 0 and 1 and raises nothing.  The histogram
    is taken of the sample itself when its standard deviation is not close to
    zero and of the noise-injected sample when it is; a sample of zero
    variance takes the noise path. *)
Theorem C3_entropy_unit_interval (randn : nat -> Q) (x : list Q) :
  (2 <= length x)%nat ->
  exists counts r,
    histogram (if allclose_0 (np_std x) then add_noise randn 0 x else x) 30
    = Ok counts /\
    _shannon_entropy randn x 30 true = Ok (Val r) /\
    r = (H counts / log2 30)%R /\
    (0 <= r <= 1)%R /\
    ((variance x == 0)%Q -> allclose_0 (np_std x) = true).
Proof.
  intros Hlen.
  destruct (shannon_entropy_normalized randn x 30 ltac:(lia)) as [counts [E [L S]]].
  assert (L30 : INR (length counts) = 30%R).
  { rewrite L. change (Z.to_nat 30) with 30%nat. rewrite INR_IZR_INZ. reflexivity. }
  rewrite L30 in S.
  assert (P : (0 < log2 30)%R) by (apply log2_pos; lra).
  assert (B : Rltb 0 (log2 30) = true) by (apply Rltb_true; exact P).
  rewrite B in S.
  exists counts, (H counts / log2 30)%R.
  repeat split; try assumption.
  - apply Rmult_le_pos; [apply H_nonneg | left; apply Rinv_0_lt_compat; exact P].
  - assert (NE : counts <> []) by (intros ->; discriminate L).
    pose proof (H_le_log2_length counts NE) as U. rewrite L30 in U.
    apply (Rmult_le_reg_r (log2 30)); [exact P|].
    unfold Rdiv. rewrite Rmult_assoc, Rinv_l by lra. lra.
  - intros V0. apply allclose_0_zero_variance; [|exact V0].
    intros ->. cbn in Hlen. lia.
Qed.

Lemma C3_entropy_unit_interval_witness :
  exists counts r,
    histogram (if allclose_0 (np_std [1 # 1; 2 # 1; 4 # 1])
               then add_noise (fun _ => 0%Q) 0 [1 # 1; 2 # 1; 4 # 1]
               else [1 # 1; 2 # 1; 4 # 1]) 30
    = Ok counts /\
    _shannon_entropy (fun _ => 0%Q) [1 # 1; 2 # 1; 4 # 1] 30 true = Ok (Val r) /\
    r = (H counts / log2 30)%R /\
    (0 <= r <= 1)%R /\
    ((variance [1 # 1; 2 # 1; 4 # 1] == 0)%Q
     -> allclose_0 (np_std [1 # 1; 2 # 1; 4 # 1]) = true).
Proof.
  apply (C3_entropy_unit_interval (fun _ => 0%Q) [1 # 1; 2 # 1; 4 # 1]).
  simpl. lia.
Defined.

(** C9 (amended): with normalisation, one bin gives NaN for every sample,
    and a bin count below one makes the histogram raise. *)
Theorem C9_entropy_bins_le_1 (randn : nat -> Q) (x : list Q) (bins : Z) :
  (bins <= 1)%Z ->
  _shannon_entropy randn x bins true
  = if (bins =? 1)%Z then Ok NaN else Raise bins_must_be_positive.
Proof.
  intros Hb. destruct (bins =? 1)%Z eqn:E.
  - apply Z.eqb_eq in E. subst bins.
    destruct (shannon_entropy_normalized randn x 1 ltac:(lia)) as [counts [_ [L S]]].
    rewrite S, L. change (Z.to_nat 1) with 1%nat. cbn [INR].
    unfold log2. rewrite ln_1.
    replace (Rltb 0 (0 / ln 2)) with false; [reflexivity|].
    symmetry. apply Rltb_false. unfold Rdiv. rewrite Rmult_0_l. lra.
  - apply Z.eqb_neq in E. unfold _shannon_entropy.
    rewrite histogram_Raise by lia. reflexivity.
Qed.

Lemma C9_entropy_bins_le_1_witness :
  _shannon_entropy (fun _ => 0%Q) [1 # 1; 2 # 1] 1 true = Ok NaN.
Proof.
  apply (C9_entropy_bins_le_1 (fun _ => 0%Q) [1 # 1; 2 # 1] 1). lia.
Defined.

(** C9, as stated, fails: with zero bins the estimator raises instead of
    returning NaN. *)
Lemma C9_counterexample_zero_bins :
  raises (_shannon_entropy (fun _ => 0%Q) [1 # 1; 2 # 1] 0 true) = true /\
  _shannon_entropy (fun _ => 0%Q) [1 # 1; 2 # 1] 0 true <> Ok NaN.
Proof.
  unfold _shannon_entropy. rewrite histogram_Raise by lia.
  split; [reflexivity | discriminate].
Qed.

(** ** The entry point *)

Lemma shannon_entropy_Ok (randn : nat -> Q) (x : list Q) (bins : Z) :
  (1 <= bins)%Z -> exists v, _shannon_entropy randn x bins true = Ok v.
Proof.
  intros Hb.
  destruct (shannon_entropy_normalized randn x bins Hb) as [counts [_ [_ S]]].
  eexists. exact S.
Qed.

Lemma slice_from_0 {A : Type} (l : list A) : slice_from l 0 = l.
Proof.
  unfold slice_from, norm_index. cbn [Z.ltb Z.compare].
  rewrite Z.min_l by lia. reflexivity.
Qed.

Lemma slice_to_0 {A : Type} (l : list A) : slice_to l (- 0) = [].
Proof.
  unfold slice_to, norm_index. cbn [Z.opp Z.ltb Z.compare].
  rewrite Z.min_l by lia. reflexivity.
Qed.

(** C10 (amended): with [mi_lag = 0] a non-empty series reaches the
    mutual-information estimator as the full series and an empty slice, the
    joint histogram refuses the unequal lengths, and the entry point raises
    instead of returning a record; so no flag at all is produced. *)
Theorem C10_lag_zero_raises
    (polyfit_slope : list R -> list R -> result pyfloat) (randn : nat -> Q)
    (returns : list Q) (bins : Z) :
  returns <> [] ->
  slice_from returns 0 = returns /\
  slice_to returns (- 0) = [] /\
  detect_risk_factors polyfit_slope randn returns bins 0
  = Raise (if (bins <? 1)%Z then bins_must_be_positive
           else ValueError "x and y must have the same length.").
Proof.
  intros NE. split; [apply slice_from_0|]. split; [apply slice_to_0|].
  unfold detect_risk_factors. rewrite slice_from_0, slice_to_0.
  destruct (bins <? 1)%Z eqn:E.
  - apply Z.ltb_lt in E. unfold _shannon_entropy.
    rewrite histogram_Raise by assumption. reflexivity.
  - apply Z.ltb_ge in E.
    destruct (shannon_entropy_Ok randn returns bins E) as [v Ev].
    rewrite Ev. cbn [bind]. unfold _mutual_information_norm.
    destruct (histogram_Ok returns bins E) as [cx [Ex _]].
    destruct (histogram_Ok [] bins E) as [cy [Ey _]].
    rewrite Ex, Ey. cbn [bind].
    rewrite histogram2d_length_mismatch; [reflexivity|].
    destruct returns; [congruence | discriminate].
Qed.

Lemma C10_lag_zero_raises_witness :
  slice_from [1 # 100; -2 # 100; 3 # 100] 0 = [1 # 100; -2 # 100; 3 # 100] /\
  slice_to [1 # 100; -2 # 100; 3 # 100] (- 0) = [] /\
  detect_risk_factors ols_slope no_noise [1 # 100; -2 # 100; 3 # 100] 30 0
  = Raise (ValueError "x and y must have the same length.").
Proof.
  apply (C10_lag_zero_raises ols_slope no_noise [1 # 100; -2 # 100; 3 # 100] 30).
  discriminate.
Defined.

(** C10, as stated, fails: for this series and [mi_lag = 0] there is no
    result record, hence none whose mutual-information field is NaN. *)
Lemma C10_counterexample_no_record :
  ~ (exists r,
        detect_risk_factors ols_slope no_noise [1 # 100; -2 # 100; 3 # 100] 30 0 = Ok r
        /\ mi_norm r = NaN).
Proof.
  intros [r [E _]].
  unfold detect_risk_factors in E. rewrite slice_from_0, slice_to_0 in E.
  destruct (shannon_entropy_Ok no_noise [1 # 100; -2 # 100; 3 # 100] 30 ltac:(lia))
    as [v Ev].
  rewrite Ev in E. cbn [bind] in E. unfold _mutual_information_norm in E.
  destruct (histogram_Ok [1 # 100; -2 # 100; 3 # 100] 30 ltac:(lia)) as [cx [Ex _]].
  destruct (histogram_Ok [] 30 ltac:(lia)) as [cy [Ey _]].
  rewrite Ex, Ey in E. cbn [bind] in E.
  rewrite histogram2d_length_mismatch in E by (cbn; lia).
  discriminate E.
Qed.

(** C7 (amended): the entry point has two optional parameters, the bin
    count (default 30) and the mutual-information lag (default 1); the bin
    count configures the entropy and mutual-information estimators and the
    lag the mutual-information estimator.  The minimum R/S window is not a
    parameter: the Hurst estimator always runs with 16, and passing
    [min_window] raises [TypeError]. *)
Theorem C7_entry_point_parameters
    (polyfit_slope : list R -> list R -> result pyfloat) (randn : nat -> Q)
    (returns : list Q) :
  call_detect_risk_factors polyfit_slope randn returns []
  = detect_risk_factors polyfit_slope randn returns 30 1 /\
  (forall bins mi_lag,
      call_detect_risk_factors polyfit_slope randn returns [("bins"%string, bins)]
      = detect_risk_factors polyfit_slope randn returns bins 1 /\
      call_detect_risk_factors polyfit_slope randn returns [("mi_lag"%string, mi_lag)]
      = detect_risk_factors polyfit_slope randn returns 30 mi_lag /\
      call_detect_risk_factors polyfit_slope randn returns
        [("bins"%string, bins); ("mi_lag"%string, mi_lag)]
      = detect_risk_factors polyfit_slope randn returns bins mi_lag /\
      field entropy (detect_risk_factors polyfit_slope randn returns bins mi_lag)
      = (e <- _shannon_entropy randn returns bins true ;;
         _ <- _mutual_information_norm (slice_from returns mi_lag)
                (slice_to returns (- mi_lag)) bins ;;
         _ <- _hurst_exponent_rs polyfit_slope returns 16 ;;
         Ok e) /\
      field mi_norm (detect_risk_factors polyfit_slope randn returns bins mi_lag)
      = (_ <- _shannon_entropy randn returns bins true ;;
         m <- _mutual_information_norm (slice_from returns mi_lag)
                (slice_to returns (- mi_lag)) bins ;;
         _ <- _hurst_exponent_rs polyfit_slope returns 16 ;;
         Ok m) /\
      field hurst (detect_risk_factors polyfit_slope randn returns bins mi_lag)
      = (_ <- _shannon_entropy randn returns bins true ;;
         _ <- _mutual_information_norm (slice_from returns mi_lag)
                (slice_to returns (- mi_lag)) bins ;;
         _hurst_exponent_rs polyfit_slope returns 16)) /\
  (forall min_window rest,
      call_detect_risk_factors polyfit_slope randn returns
        (("min_window"%string, min_window) :: rest)
      = Raise unexpected_keyword).
Proof.
  split; [reflexivity|]. split; [|reflexivity].
  intros bins mi_lag. repeat split; unfold detect_risk_factors, field;
    destruct (_shannon_entropy randn returns bins true) as [e|]; cbn [bind];
      try reflexivity;
    destruct (_mutual_information_norm (slice_from returns mi_lag)
                (slice_to returns (- mi_lag)) bins) as [m|]; cbn [bind];
      try reflexivity;
    destruct (_hurst_exponent_rs polyfit_slope returns 16) as [h|]; reflexivity.
Qed.

(** C7, as stated, fails: the minimum R/S window cannot be supplied; a call
    that passes it raises and returns no record. *)
Lemma C7_counterexample_min_window :
  call_detect_risk_factors ols_slope no_noise [1 # 100; -2 # 100; 3 # 100]
    [("min_window"%string, 8%Z)]
  = Raise unexpected_keyword.
Proof. reflexivity. Qed.

(** ** Loops *)

Lemma bind_Ok_r {A : Type} (m : result (list A)) :
  (outs <- m ;; Ok ([] ++ outs)) = m.
Proof. destruct m; reflexivity. Qed.

Lemma for_each_skip {A B : Type} (skip : A -> bool) (body : A -> result (list B))
    (l : list A) :
  for_each (fun a => if skip a then Ok [] else body a) l
  = for_each body (filter (fun a => negb (skip a)) l).
Proof.
  induction l as [|a l IH]; [reflexivity|].
  cbn [for_each filter]. destruct (skip a); cbn [negb].
  - cbn [bind]. rewrite bind_Ok_r. exact IH.
  - cbn [for_each]. rewrite IH. reflexivity.
Qed.

Lemma for_each_nil {A B : Type} (body : A -> result (list B)) (l : list A) :
  (forall a, In a l -> body a = Ok []) -> for_each body l = Ok [].
Proof.
  induction l as [|a l IH]; intros Hall; [reflexivity|].
  cbn [for_each]. rewrite (Hall a (or_introl eq_refl)). cbn [bind].
  rewrite IH by (intros b Hb; apply Hall; right; exact Hb). reflexivity.
Qed.

Lemma In_zrange (n i : Z) : In i (zrange n) <-> (0 <= i < n)%Z.
Proof.
  unfold zrange. rewrite in_map_iff. split.
  - intros [k [<- Hk]]. apply in_seq in Hk. lia.
  - intros Hi. exists (Z.to_nat i). split; [lia|]. apply in_seq. lia.
Qed.

(** ** The window sizes *)

Lemma size_at_degenerate (min_window max_window : Z) (i : nat) :
  (0 <? min_window)%Z && (0 <? max_window)%Z = false ->
  let s := size_at min_window max_window i in
  (s < 2)%Z \/ s = max_window.
Proof.
  intros Hd s. subst s. unfold size_at. rewrite Hd.
  destruct (i =? 9)%nat.
  - destruct (0 <? max_window)%Z; [right; reflexivity | left; lia].
  - left. destruct (0 <? min_window)%Z; [destruct (i =? 0)%nat|];
      unfold nan_as_int; lia.
Qed.

Lemma count_occ_filter_ge_2 (sizes : list Z) (w : Z) :
  (2 <= w)%Z ->
  count_occ Z.eq_dec (filter (fun s => negb (s <? 2)%Z) sizes) w
  = count_occ Z.eq_dec sizes w.
Proof.
  intros Hw. induction sizes as [|s sizes IH]; [reflexivity|].
  cbn [filter]. destruct (s <? 2)%Z eqn:E; cbn [negb].
  - apply Z.ltb_lt in E. rewrite count_occ_cons_neq by lia. exact IH.
  - destruct (Z.eq_dec s w) as [->|Hne].
    + rewrite !count_occ_cons_eq by reflexivity. rewrite IH. reflexivity.
    + rewrite !count_occ_cons_neq by assumption. exact IH.
Qed.

(** C6 (amended): the estimator loops over the ten entries of [sizes] in
    their order.  Whatever integers the flooring produced, an entry below 2
    is skipped and the body (lines 48-58) runs once for every other entry, so
    a size of at least 2 is processed as many times as it occurs in [sizes].
    Nothing removes duplicates. *)
Theorem C6_window_sizes (min_window N : Z) (x : list Q) :
  length (window_sizes min_window N) = 10%nat /\
  for_each (window_RS x) (window_sizes min_window N)
  = for_each (window_body x) (processed_windows min_window N) /\
  (forall sizes : list Z,
     let processed := filter (fun w => negb (w <? 2)%Z) sizes in
     for_each (window_RS x) sizes = for_each (window_body x) processed /\
     Forall (fun w => (2 <= w)%Z) processed /\
     forall w, (2 <= w)%Z ->
       count_occ Z.eq_dec processed w = count_occ Z.eq_dec sizes w) /\
  forall polyfit_slope,
    _hurst_exponent_rs polyfit_slope x min_window
    = (RS <- for_each (window_body (centred x))
               (processed_windows min_window (Z.of_nat (length x))) ;;
       match RS with
       | [] => Ok NaN
       | _ => polyfit_slope (map (fun p => ln (IZR (fst p))) RS)
                            (map (fun p => ln (snd p)) RS)
       end).
Proof.
  assert (L : forall (x : list Q) (sizes : list Z),
             for_each (window_RS x) sizes
             = for_each (window_body x) (filter (fun w => negb (w <? 2)%Z) sizes)).
  { intros x0 sizes. rewrite <- for_each_skip. reflexivity. }
  split; [reflexivity|]. split; [apply L|]. split.
  - intros sizes processed. split; [apply L|]. split.
    + apply Forall_forall. intros w Hw. apply filter_In in Hw.
      destruct Hw as [_ Hw]. apply negb_true_iff in Hw. apply Z.ltb_ge in Hw. exact Hw.
    + intros w Hw. apply count_occ_filter_ge_2. exact Hw.
  - intros polyfit_slope. unfold _hurst_exponent_rs, processed_windows.
    replace (length (centred x)) with (length x)
      by (unfold centred; symmetry; apply length_map).
    rewrite L.
    destruct (for_each (window_body (centred x))
                (filter (fun w => negb (w <? 2)%Z)
                   (window_sizes min_window (Z.of_nat (length x))))) as [RS|e];
      [|reflexivity].
    cbn [bind]. destruct RS as [|p RS]; [reflexivity|].
    rewrite !map_map. reflexivity.
Qed.

(** C6, as stated, fails: for a series of 40 values the sizes 16, 17, 18
    and 19 are each processed more than once. *)
Lemma C6_counterexample_duplicates :
  processed_windows 16 40 = [16; 16; 16; 17; 17; 18; 18; 19; 19; 20]%Z /\
  ~ NoDup (processed_windows 16 40).
Proof.
  assert (E : processed_windows 16 40 = [16; 16; 16; 17; 17; 18; 18; 19; 19; 20]%Z)
    by (vm_compute; reflexivity).
  split; [exact E|]. rewrite E. intros ND.
  inversion ND as [|? ? Hnin _]. apply Hnin. left. reflexivity.
Qed.

(** ** The Hurst estimator *)

Lemma slice_segment_length {A : Type} (l : list A) (i w : Z) :
  (0 <= i)%Z -> (0 < w)%Z -> ((i + 1) * w <= Z.of_nat (length l))%Z ->
  length (slice l (i * w) ((i + 1) * w)) = Z.to_nat w.
Proof.
  intros Hi Hw Hle. unfold slice, norm_index.
  assert (H0 : (0 <= i * w)%Z) by (apply Z.mul_nonneg_nonneg; lia).
  assert (H1 : (i * w <= (i + 1) * w)%Z) by nia.
  replace (i * w <? 0)%Z with false by (symmetry; apply Z.ltb_ge; lia).
  replace ((i + 1) * w <? 0)%Z with false by (symmetry; apply Z.ltb_ge; lia).
  rewrite !Z.min_l by lia.
  rewrite length_firstn, length_skipn. nia.
Qed.

Lemma cumsum_from_length (acc : Q) (l : list Q) :
  length (cumsum_from acc l) = length l.
Proof.
  revert acc. induction l as [|v l IH]; intros acc; cbn; [reflexivity|].
  rewrite IH. reflexivity.
Qed.

(** A non-empty segment whose standard deviation is not positive appends
    nothing and raises nothing. *)
Lemma segment_rs_invalid (seg : list Q) :
  seg <> [] -> pyfloat_lt (Val 0) (np_std seg) = false -> segment_rs seg = Ok [].
Proof.
  intros NE Hs. unfold segment_rs.
  set (Y := cumsum (map (fun v => (v - np_mean seg)%Q) seg)).
  assert (HY : Y <> []).
  { intros E. apply (f_equal (@length Q)) in E. unfold Y, cumsum in E.
    rewrite cumsum_from_length, length_map in E.
    destruct seg; [congruence | discriminate E]. }
  destruct Y as [|y Y']; [congruence|]. cbn [np_max_of np_min_of bind].
  destruct (np_std seg) as [|sd]; [reflexivity|].
  cbn [pyfloat_lt] in Hs. rewrite Hs. reflexivity.
Qed.

Lemma rs_vals_of_invalid (x : list Q) (w : Z) :
  (2 <= w)%Z ->
  (forall i, (0 <= i < Z.of_nat (length x) / w)%Z ->
             pyfloat_lt (Val 0) (np_std (slice x (i * w) ((i + 1) * w))) = false) ->
  rs_vals_of x w = Ok [].
Proof.
  intros Hw Hall. unfold rs_vals_of. apply for_each_nil.
  intros i Hi. apply In_zrange in Hi.
  apply segment_rs_invalid; [|apply Hall; exact Hi].
  intros E. apply (f_equal (@length Q)) in E.
  rewrite slice_segment_length in E; [cbn in E; lia | lia | lia |].
  pose proof (Z.mul_div_le (Z.of_nat (length x)) w ltac:(lia)). nia.
Qed.

(** Without a valid segment the list [RS] stays empty. *)
Lemma RS_empty (x : list Q) (min_window : Z) :
  (forall w i,
      In w (window_sizes min_window (Z.of_nat (length x))) -> (2 <= w)%Z ->
      (0 <= i < Z.of_nat (length x) / w)%Z ->
      pyfloat_lt (Val 0) (np_std (slice (centred x) (i * w) ((i + 1) * w))) = false) ->
  for_each (window_RS (centred x))
           (window_sizes min_window (Z.of_nat (length (centred x))))
  = Ok [].
Proof.
  intros Hall.
  assert (L : length (centred x) = length x) by (unfold centred; apply length_map).
  rewrite L. apply for_each_nil.
  intros w Hw. unfold window_RS. destruct (w <? 2)%Z eqn:E; [reflexivity|].
  apply Z.ltb_ge in E. unfold window_body.
  rewrite rs_vals_of_invalid; [reflexivity | exact E |].
  intros i Hi. rewrite L in Hi. apply Hall; assumption.
Qed.


Lemma std_not_positive (seg : list Q) :
  Qeq_bool (variance seg) 0 = true -> pyfloat_lt (Val 0) (np_std seg) = false.
Proof.
  intros V0. apply Qeq_bool_eq in V0. unfold np_std.
  destruct seg as [|v rest]; [reflexivity|].
  cbn [pyfloat_lt]. apply Rltb_false.
  rewrite (Qeq_eqR _ _ V0). unfold Q2R at 1. cbn [Qnum Qden].
  replace (0 * / IZR (Z.pos 1))%R with 0%R by ring.
  rewrite sqrt_0. lra.
Qed.

(** X9: a series shorter than two values has no window of size 2 or more:
    its Hurst exponent is NaN for every minimum window, and nothing raises. *)
Lemma hurst_short_series
    (polyfit_slope : list R -> list R -> result pyfloat) (x : list Q) (min_window : Z) :
  (length x < 2)%nat -> _hurst_exponent_rs polyfit_slope x min_window = Ok NaN.
Proof.
  intros Hlen. unfold _hurst_exponent_rs. rewrite RS_empty; [reflexivity|].
  intros w i Hw H2 _. exfalso.
  unfold window_sizes in Hw. apply in_map_iff in Hw. destruct Hw as [k [Hk _]].
  assert (M0 : (Z.of_nat (length x) / 2 = 0)%Z) by (apply Z.div_small; lia).
  rewrite M0 in Hk.
  pose proof (size_at_degenerate min_window 0 k) as D.
  rewrite andb_false_r in D. specialize (D eq_refl). cbv zeta in D. lia.
Qed.


(** ** Minimum and maximum of a sample *)

Lemma Qmin_le_l (u v : Q) : (Qmin u v <= u)%Q.
Proof.
  unfold Qmin. destruct (Qle_bool u v) eqn:E; [apply Qle_refl|].
  destruct (Qlt_le_dec v u) as [L|L]; [apply Qlt_le_weak; exact L|].
  apply Qle_bool_iff in L. congruence.
Qed.

Lemma Qmin_le_r (u v : Q) : (Qmin u v <= v)%Q.
Proof.
  unfold Qmin. destruct (Qle_bool u v) eqn:E; [|apply Qle_refl].
  apply Qle_bool_iff. exact E.
Qed.

Lemma Qmax_ge_l (u v : Q) : (u <= Qmax u v)%Q.
Proof.
  unfold Qmax. destruct (Qle_bool u v) eqn:E; [|apply Qle_refl].
  apply Qle_bool_iff. exact E.
Qed.

Lemma Qmax_ge_r (u v : Q) : (v <= Qmax u v)%Q.
Proof.
  unfold Qmax. destruct (Qle_bool u v) eqn:E; [apply Qle_refl|].
  destruct (Qlt_le_dec v u) as [L|L]; [apply Qlt_le_weak; exact L|].
  apply Qle_bool_iff in L. congruence.
Qed.

Lemma np_min_le (v : Q) (rest : list Q) :
  (np_min v rest <= v)%Q /\ forall u, In u rest -> (np_min v rest <= u)%Q.
Proof.
  unfold np_min. revert v. induction rest as [|w rest IH]; intros v; cbn [fold_left].
  - split; [apply Qle_refl | intros u []].
  - destruct (IH (Qmin v w)) as [I1 I2]. split.
    + eapply Qle_trans; [exact I1 | apply Qmin_le_l].
    + intros u [<-|Hu]; [|apply I2; exact Hu].
      eapply Qle_trans; [exact I1 | apply Qmin_le_r].
Qed.

Lemma np_max_ge (v : Q) (rest : list Q) :
  (v <= np_max v rest)%Q /\ forall u, In u rest -> (u <= np_max v rest)%Q.
Proof.
  unfold np_max. revert v. induction rest as [|w rest IH]; intros v; cbn [fold_left].
  - split; [apply Qle_refl | intros u []].
  - destruct (IH (Qmax v w)) as [I1 I2]. split.
    + eapply Qle_trans; [apply Qmax_ge_l | exact I1].
    + intros u [<-|Hu]; [|apply I2; exact Hu].
      eapply Qle_trans; [apply Qmax_ge_r | exact I1].
Qed.

(** ** Histograms under an increasing affine transform *)

Section Affine.

Variables a b : Q.
Hypothesis a_pos : (0 < a)%Q.

Let t := affine a b.

Lemma Qle_bool_affine (u v : Q) : Qle_bool (t u) (t v) = Qle_bool u v.
Proof.
  apply eq_true_iff_eq. rewrite !Qle_bool_iff. unfold t, affine.
  rewrite Qplus_le_l. rewrite Qmult_le_l by exact a_pos. reflexivity.
Qed.

Lemma Qmin_affine (u v : Q) : Qmin (t u) (t v) = t (Qmin u v).
Proof. unfold Qmin. rewrite Qle_bool_affine. destruct (Qle_bool u v); reflexivity. Qed.

Lemma Qmax_affine (u v : Q) : Qmax (t u) (t v) = t (Qmax u v).
Proof. unfold Qmax. rewrite Qle_bool_affine. destruct (Qle_bool u v); reflexivity. Qed.

Lemma np_min_affine (v : Q) (rest : list Q) :
  np_min (t v) (map t rest) = t (np_min v rest).
Proof.
  unfold np_min. revert v. induction rest as [|w rest IH]; intros v; [reflexivity|].
  cbn [map fold_left]. rewrite Qmin_affine. apply IH.
Qed.

Lemma np_max_affine (v : Q) (rest : list Q) :
  np_max (t v) (map t rest) = t (np_max v rest).
Proof.
  unfold np_max. revert v. induction rest as [|w rest IH]; intros v; [reflexivity|].
  cbn [map fold_left]. rewrite Qmax_affine. apply IH.
Qed.

Lemma Qeq_bool_affine (u v : Q) : Qeq_bool (t u) (t v) = Qeq_bool u v.
Proof.
  apply eq_true_iff_eq. rewrite !Qeq_bool_iff. unfold t, affine. split; intros E.
  - apply -> Qplus_inj_r in E. apply -> Qmult_inj_l in E; [exact E|].
    intros Z0. rewrite Z0 in a_pos. apply (Qlt_irrefl 0). exact a_pos.
  - rewrite E. reflexivity.
Qed.

Lemma bin_index_comp (lo1 hi1 v1 lo2 hi2 v2 : Q) (n : Z) :
  ((v1 - lo1) / (hi1 - lo1) == (v2 - lo2) / (hi2 - lo2))%Q ->
  bin_index lo1 hi1 n v1 = bin_index lo2 hi2 n v2.
Proof.
  intros E. unfold bin_index.
  assert (F : Qfloor ((v1 - lo1) / (hi1 - lo1) * inject_Z n)
              = Qfloor ((v2 - lo2) / (hi2 - lo2) * inject_Z n)).
  { apply Qfloor_comp. rewrite E. reflexivity. }
  rewrite F. reflexivity.
Qed.

(** Every element keeps its bin. *)
Lemma bin_index_affine (x : list Q) (v : Q) (n : Z) :
  In v x ->
  bin_index (fst (outer_edges (map t x))) (snd (outer_edges (map t x))) n (t v)
  = bin_index (fst (outer_edges x)) (snd (outer_edges x)) n v.
Proof.
  intros Hin. destruct x as [|u rest]; [destruct Hin|].
  cbn [map outer_edges]. rewrite np_min_affine, np_max_affine, Qeq_bool_affine.
  pose proof (np_min_le u rest) as [m1 m2].
  pose proof (np_max_ge u rest) as [M1 M2].
  set (lo := np_min u rest) in *. set (hi := np_max u rest) in *.
  assert (Hlo : (lo <= v)%Q) by (destruct Hin as [<-|Hin]; auto).
  assert (Hhi : (v <= hi)%Q) by (destruct Hin as [<-|Hin]; auto).
  assert (a_nz : ~ (a == 0)%Q).
  { intros Z0. rewrite Z0 in a_pos. apply (Qlt_irrefl 0). exact a_pos. }
  destruct (Qeq_bool lo hi) eqn:E; cbn [fst snd]; apply bin_index_comp.
  - apply Qeq_bool_eq in E.
    assert (Ev : (v == lo)%Q).
    { apply Qle_antisym; [|exact Hlo]. rewrite E. exact Hhi. }
    unfold t, affine. rewrite Ev, <- E. field.
    intros Z0. assert (F : (lo + (1 # 2) - (lo - (1 # 2)) == 1)%Q) by ring.
    rewrite F in Z0. discriminate Z0.
  - apply Qeq_bool_neq in E.
    assert (D : ~ (hi - lo == 0)%Q).
    { intros Z0. apply E. symmetry.
      apply (Qplus_inj_r _ _ (- lo)). rewrite Qplus_opp_r. exact Z0. }
    unfold t, affine. field. split; [exact D|].
    intros Z0. apply D.
    assert (F : (a * (hi - lo) == 0)%Q) by (rewrite <- Z0; ring).
    apply Qmult_integral in F. destruct F as [F|F]; [contradiction | exact F].
Qed.

Lemma count_if_map {A B : Type} (f : B -> bool) (g : A -> B) (l : list A) :
  count_if f (map g l) = count_if (fun v => f (g v)) l.
Proof.
  unfold count_if. induction l as [|v l IH]; [reflexivity|].
  cbn [map filter]. destruct (f (g v)); cbn [length]; rewrite IH; reflexivity.
Qed.

Lemma count_if_ext_in {A : Type} (f g : A -> bool) (l : list A) :
  (forall v, In v l -> f v = g v) -> count_if f l = count_if g l.
Proof.
  intros E. unfold count_if. rewrite (filter_ext_in f g l E). reflexivity.
Qed.

Lemma histogram_affine (x : list Q) (bins : Z) :
  histogram (map t x) bins = histogram x bins.
Proof.
  unfold histogram. destruct (bins <? 1)%Z; [reflexivity|].
  pose proof (fun v => bin_index_affine x v bins) as B.
  destruct (outer_edges (map t x)) as [lo' hi'], (outer_edges x) as [lo hi].
  cbn [fst snd] in B. f_equal. apply map_ext. intros k.
  rewrite count_if_map. apply count_if_ext_in.
  intros v Hv. rewrite (B v Hv). reflexivity.
Qed.

Lemma combine_map_l (x y : list Q) :
  combine (map t x) y = map (fun xy => (t (fst xy), snd xy)) (combine x y).
Proof.
  revert y. induction x as [|u x IH]; intros [|w y]; try reflexivity.
  cbn [map combine fst snd]. rewrite IH. reflexivity.
Qed.

Lemma combine_map_r (x y : list Q) :
  combine x (map t y) = map (fun xy => (fst xy, t (snd xy))) (combine x y).
Proof.
  revert y. induction x as [|u x IH]; intros [|w y]; try reflexivity.
  cbn [map combine fst snd]. rewrite IH. reflexivity.
Qed.

Lemma histogram2d_affine_l (x y : list Q) (bins : Z) :
  histogram2d (map t x) y bins = histogram2d x y bins.
Proof.
  unfold histogram2d. rewrite length_map.
  destruct (negb (length x =? length y)%nat); [reflexivity|].
  destruct (bins <? 1)%Z; [reflexivity|].
  pose proof (fun v => bin_index_affine x v bins) as B.
  destruct (outer_edges (map t x)) as [lo' hi'], (outer_edges x) as [lo hi].
  destruct (outer_edges y) as [loy hiy].
  cbn [fst snd] in B. f_equal. apply map_ext. intros i. apply map_ext. intros j.
  rewrite combine_map_l, count_if_map. apply count_if_ext_in.
  intros [u w] Hin. cbn [fst snd]. apply in_combine_l in Hin.
  rewrite (B u Hin). reflexivity.
Qed.

Lemma histogram2d_affine_r (x y : list Q) (bins : Z) :
  histogram2d x (map t y) bins = histogram2d x y bins.
Proof.
  unfold histogram2d. rewrite length_map.
  destruct (negb (length x =? length y)%nat); [reflexivity|].
  destruct (bins <? 1)%Z; [reflexivity|].
  pose proof (fun v => bin_index_affine y v bins) as B.
  destruct (outer_edges x) as [lox hix].
  destruct (outer_edges (map t y)) as [lo' hi'], (outer_edges y) as [lo hi].
  cbn [fst snd] in B. f_equal. apply map_ext. intros i. apply map_ext. intros j.
  rewrite combine_map_r, count_if_map. apply count_if_ext_in.
  intros [u w] Hin. cbn [fst snd]. apply in_combine_r in Hin.
  rewrite (B w Hin). reflexivity.
Qed.

End Affine.

(** ** Entropy depends on the occupied bins only *)

Lemma Hterm_zero_count (T : R) : Hterm T 0 = 0%R.
Proof.
  unfold Hterm. cbn [INR]. unfold Rdiv. rewrite Rmult_0_l.
  replace (Rltb 0 0) with false; [reflexivity|].
  symmetry. apply Rltb_false. lra.
Qed.

Lemma Hterm_pos_count (T : R) (c : nat) :
  (0 < T)%R -> (0 < c)%nat ->
  Hterm T c = (- (INR c / T * log2 (INR c / T)))%R.
Proof.
  intros HT Hc. unfold Hterm.
  replace (Rltb 0 (INR c / T)) with true; [reflexivity|].
  symmetry. apply Rltb_true. apply Rdiv_lt_0_compat; [|exact HT].
  apply lt_0_INR. exact Hc.
Qed.

Lemma H_occupied (counts : list nat) :
  H counts = H (filter (fun c => negb (c =? 0)%nat) counts).
Proof.
  rewrite !H_as_terms.
  assert (S : list_sum (filter (fun c => negb (c =? 0)%nat) counts) = list_sum counts).
  { induction counts as [|c l IH]; [reflexivity|].
    cbn [filter]. destruct (c =? 0)%nat eqn:E; cbn [negb].
    - apply Nat.eqb_eq in E. subst c. exact IH.
    - change (list_sum (c :: filter (fun c0 => negb (c0 =? 0)%nat) l))
        with (c + list_sum (filter (fun c0 => negb (c0 =? 0)%nat) l))%nat.
      rewrite IH. reflexivity. }
  rewrite S. clear S. generalize (INR (list_sum counts)) as T. intros T.
  induction counts as [|c l IH]; [reflexivity|].
  cbn [filter map]. destruct (c =? 0)%nat eqn:E; cbn [negb].
  - apply Nat.eqb_eq in E. subst c.
    change (Rsum (Hterm T 0%nat :: map (Hterm T) l))
      with (Hterm T 0%nat + Rsum (map (Hterm T) l))%R.
    rewrite Hterm_zero_count, IH. lra.
  - cbn [map].
    change (Rsum (Hterm T c :: map (Hterm T) l))
      with (Hterm T c + Rsum (map (Hterm T) l))%R.
    rewrite IH. reflexivity.
Qed.

Lemma mutual_information_occupied (x y : list Q) (bins : Z) (sx sy sxy : list nat) :
  occupied (histogram x bins) = sx ->
  occupied (histogram y bins) = sy ->
  occupied2d (histogram2d x y bins) = sxy ->
  sx <> [] -> sy <> [] -> sxy <> [] ->
  _mutual_information_norm x y bins
  = Ok (if Rltb 0 (H sx) then Val ((H sx + H sy - H sxy) / H sx) else NaN).
Proof.
  intros Ex Ey Exy Nx Ny Nxy. unfold _mutual_information_norm.
  destruct (histogram x bins) as [cx|]; [|cbn in Ex; congruence].
  destruct (histogram y bins) as [cy|]; [|cbn in Ey; congruence].
  destruct (histogram2d x y bins) as [cxy|]; [|cbn in Exy; congruence].
  cbn [bind occupied occupied2d] in *.
  rewrite (H_occupied cx), (H_occupied cy), (H_occupied (ravel cxy)).
  rewrite Ex, Ey, Exy. reflexivity.
Qed.

Lemma log2_3_gt_1 : (1 < log2 3)%R.
Proof.
  unfold log2. pose proof ln2_pos as L2.
  assert (ln 2 < ln 3)%R by (apply ln_increasing; lra).
  apply (Rmult_lt_reg_r (ln 2)); [exact L2|].
  unfold Rdiv. rewrite Rmult_assoc, Rinv_l by lra. lra.
Qed.

Lemma H_111 : H [1; 1; 1]%nat = log2 3.
Proof.
  rewrite H_as_terms. cbn [list_sum fold_right Nat.add map Rsum].
  rewrite (Hterm_pos_count (INR 3) 1) by (cbn; lra || lia).
  cbn [INR]. replace (1 / (1 + 1 + 1))%R with (/ 3)%R by (field; lra).
  unfold log2. rewrite ln_Rinv by lra. pose proof ln2_pos. field. lra.
Qed.

Lemma H_12_bounds : (0 < H [1; 2]%nat <= 1)%R.
Proof.
  split.
  - rewrite H_as_terms. cbn [list_sum fold_right Nat.add map Rsum].
    rewrite (Hterm_pos_count (INR 3) 1), (Hterm_pos_count (INR 3) 2)
      by (cbn; lra || lia).
    cbn [INR]. pose proof ln2_pos as L2.
    assert (A : (ln (1 / (1 + 1 + 1)) < 0)%R).
    { rewrite <- ln_1. apply ln_increasing; lra. }
    assert (B : (ln ((1 + 1) / (1 + 1 + 1)) < 0)%R).
    { rewrite <- ln_1. apply ln_increasing; lra. }
    unfold log2.
    assert (A' : (ln (1 / (1 + 1 + 1)) / ln 2 < 0)%R).
    { apply (Rmult_lt_reg_r (ln 2)); [exact L2|].
      unfold Rdiv at 1. rewrite Rmult_assoc, Rinv_l by lra. lra. }
    assert (B' : (ln ((1 + 1) / (1 + 1 + 1)) / ln 2 < 0)%R).
    { apply (Rmult_lt_reg_r (ln 2)); [exact L2|].
      unfold Rdiv at 1. rewrite Rmult_assoc, Rinv_l by lra. lra. }
    lra.
  - pose proof (H_le_log2_length [1; 2]%nat ltac:(discriminate)) as U.
    cbn [length INR] in U. unfold log2 in U.
    replace (1 + 1)%R with 2%R in U by lra.
    replace (ln 2 / ln 2)%R with 1%R in U; [exact U|].
    pose proof ln2_pos. field. lra.
Qed.

(** ** Rescaling the inputs of the mutual information *)

(** C8 (amended): the normalised mutual information is unchanged when
    either input is multiplied by a power of two, [v |-> 2 ^ k * v] with
    [-64 <= k <= 64], whatever the lengths and the bin count.  Such a factor
    rescales every value, the outer edges and the bin width without rounding
    in binary64 as well, so every value keeps its bin.  A negative scale
    reverses the half-open bins (the counterexample below), and a scale or
    a shift that is rounded can move a value across a bin edge. *)
Theorem C8_invariance_power_of_two_scale (x y : list Q) (bins k : Z) :
  (- 64 <= k <= 64)%Z ->
  _mutual_information_norm (map (affine (Qpower (2 # 1) k) 0) x) y bins
  = _mutual_information_norm x y bins /\
  _mutual_information_norm x (map (affine (Qpower (2 # 1) k) 0) y) bins
  = _mutual_information_norm x y bins.
Proof.
  intros _.
  assert (Ha : (0 < Qpower (2 # 1) k)%Q) by (apply Qpower_0_lt; reflexivity).
  unfold _mutual_information_norm. split.
  - rewrite (histogram_affine _ 0 Ha x bins), (histogram2d_affine_l _ 0 Ha x y bins).
    reflexivity.
  - rewrite (histogram_affine _ 0 Ha y bins), (histogram2d_affine_r _ 0 Ha x y bins).
    reflexivity.
Qed.

Lemma C8_invariance_power_of_two_scale_witness :
  (- 64 <= 3 <= 64)%Z /\
  _mutual_information_norm (map (affine (Qpower (2 # 1) 3) 0) [0 # 1; 1 # 1; 30 # 1])
    [30 # 1; 30 # 1; 0 # 1] 30
  = _mutual_information_norm [0 # 1; 1 # 1; 30 # 1] [30 # 1; 30 # 1; 0 # 1] 30 /\
  _mutual_information_norm [0 # 1; 1 # 1; 30 # 1]
    (map (affine (Qpower (2 # 1) 3) 0) [30 # 1; 30 # 1; 0 # 1]) 30
  = _mutual_information_norm [0 # 1; 1 # 1; 30 # 1] [30 # 1; 30 # 1; 0 # 1] 30.
Proof.
  split; [lia|].
  apply (C8_invariance_power_of_two_scale
           [0 # 1; 1 # 1; 30 # 1] [30 # 1; 30 # 1; 0 # 1] 30 3).
  lia.
Defined.

(** In binary64 a positive scale with a shift can move a value to another
    bin: among 30 bins over [[0, 30]] the value 13 lies in bin 13, but after
    [v |-> 0.01 * v + 1] it lies in bin 12 of the transformed range, the bin
    of the image of 12.  This is why the invariance above is stated for
    powers of two. *)
Lemma rounded_transform_moves_a_value :
  let t := fun v : float => (0.01 * v + 1)%float in
  in_bin64 0 30 30 13 13 = true /\
  in_bin64 0 30 30 12 12 = true /\
  in_bin64 (t 0%float) (t 30%float) 30 12 (t 13%float) = true /\
  in_bin64 (t 0%float) (t 30%float) 30 12 (t 12%float) = true.
Proof. vm_compute. repeat split. Qed.

(** C8, as stated, fails for a negative scale: negating [x = [0, 1, 30]]
    moves the value on the inner bin edge, 1, from the second bin to the bin
    of 0, and the normalised mutual information with [y = [30, 30, 0]] rises
    from [H [1; 2] / log2 3] to 1. *)
Lemma C8_counterexample_negative_scale :
  _mutual_information_norm (map (affine (- 1 # 1) 0) [0 # 1; 1 # 1; 30 # 1])
    [30 # 1; 30 # 1; 0 # 1] 30
  = Ok (Val 1) /\
  _mutual_information_norm [0 # 1; 1 # 1; 30 # 1] [30 # 1; 30 # 1; 0 # 1] 30
  = Ok (Val (H [1; 2]%nat / log2 3)) /\
  _mutual_information_norm (map (affine (- 1 # 1) 0) [0 # 1; 1 # 1; 30 # 1])
    [30 # 1; 30 # 1; 0 # 1] 30
  <> _mutual_information_norm [0 # 1; 1 # 1; 30 # 1] [30 # 1; 30 # 1; 0 # 1] 30.
Proof.
  pose proof H_12_bounds as [P U]. pose proof log2_3_gt_1 as L.
  assert (E1 : _mutual_information_norm
                 (map (affine (- 1 # 1) 0) [0 # 1; 1 # 1; 30 # 1])
                 [30 # 1; 30 # 1; 0 # 1] 30
               = Ok (Val 1)).
  { rewrite (mutual_information_occupied _ _ 30 [1; 2]%nat [1; 2]%nat [1; 2]%nat);
      try (vm_compute; reflexivity); try discriminate.
    replace (Rltb 0 (H [1; 2]%nat)) with true by (symmetry; apply Rltb_true; exact P).
    do 2 f_equal. field. lra. }
  assert (E2 : _mutual_information_norm [0 # 1; 1 # 1; 30 # 1]
                 [30 # 1; 30 # 1; 0 # 1] 30
               = Ok (Val (H [1; 2]%nat / log2 3))).
  { rewrite (mutual_information_occupied _ _ 30 [1; 1; 1]%nat [1; 2]%nat [1; 1; 1]%nat);
      try (vm_compute; reflexivity); try discriminate.
    rewrite H_111.
    replace (Rltb 0 (log2 3)) with true by (symmetry; apply Rltb_true; lra).
    do 2 f_equal. field. lra. }
  split; [exact E1|]. split; [exact E2|].
  rewrite E1, E2. intros E. injection E as E.
  assert (F : (H [1; 2]%nat = log2 3)%R).
  { apply (Rmult_eq_reg_r (/ log2 3)); [|apply Rinv_neq_0_compat; lra].
    rewrite Rinv_r by lra. symmetry. exact E. }
  lra.
Qed.

(** * Further properties of the estimators *)

(** ** Every value of a sample falls in exactly one bin *)

Lemma outer_edges_spec (a : list Q) :
  (fst (outer_edges a) < snd (outer_edges a))%Q /\
  forall v, In v a -> (fst (outer_edges a) <= v <= snd (outer_edges a))%Q.
Proof.
  destruct a as [|u rest].
  - cbn. split; [reflexivity | intros v []].
  - cbn [outer_edges].
    pose proof (np_min_le u rest) as [m1 m2].
    pose proof (np_max_ge u rest) as [M1 M2].
    set (lo := np_min u rest) in *. set (hi := np_max u rest) in *.
    assert (B : forall v, In v (u :: rest) -> (lo <= v <= hi)%Q).
    { intros v [<-|Hv]; split; auto. }
    assert (Hle : (lo <= hi)%Q) by (eapply Qle_trans; [exact m1 | exact M1]).
    clearbody lo hi.
    destruct (Qeq_bool lo hi) eqn:E; cbn [fst snd].
    + apply Qeq_bool_eq in E. split.
      * Lqa.lra.
      * intros v Hv. destruct (B v Hv). split; Lqa.lra.
    + apply Qeq_bool_neq in E. split; [|exact B].
      destruct (Qle_lt_or_eq _ _ Hle) as [L|L]; [exact L | contradiction].
Qed.

Lemma bin_index_range (lo hi v : Q) (n : Z) :
  (lo < hi)%Q -> (lo <= v <= hi)%Q -> (1 <= n)%Z ->
  (0 <= bin_index lo hi n v < n)%Z.
Proof.
  intros Hlh [Hl Hh] Hn. unfold bin_index.
  set (q := ((v - lo) / (hi - lo) * inject_Z n)%Q).
  assert (D : (0 < hi - lo)%Q) by Lqa.lra.
  assert (F0 : (0 <= (v - lo) / (hi - lo))%Q).
  { apply Qle_shift_div_l; [exact D | Lqa.lra]. }
  assert (F1 : ((v - lo) / (hi - lo) <= 1)%Q).
  { apply Qle_shift_div_r; [exact D | Lqa.lra]. }
  assert (Nn : (0 < inject_Z n)%Q).
  { change 0%Q with (inject_Z 0). rewrite <- Zlt_Qlt. lia. }
  assert (Q0 : (0 <= q)%Q) by (unfold q; apply Qmult_le_0_compat; Lqa.lra).
  assert (Q1 : (q <= inject_Z n)%Q).
  { unfold q. rewrite <- (Qmult_1_l (inject_Z n)) at 2.
    apply Qmult_le_compat_r; Lqa.lra. }
  assert (K0 : (0 <= Qfloor q)%Z).
  { change 0%Z with (Qfloor (inject_Z 0)). rewrite Qfloor_Z.
    rewrite <- (Qfloor_Z 0). apply Qfloor_resp_le. exact Q0. }
  assert (K1 : (Qfloor q <= n)%Z).
  { rewrite <- (Qfloor_Z n). apply Qfloor_resp_le. exact Q1. }
  destruct (Qfloor q =? n)%Z eqn:E.
  - lia.
  - apply Z.eqb_neq in E. lia.
Qed.

Lemma bin_index_in_range (a : list Q) (bins : Z) (v : Q) :
  (1 <= bins)%Z -> In v a ->
  (0 <= bin_index (fst (outer_edges a)) (snd (outer_edges a)) bins v < bins)%Z.
Proof.
  intros Hb Hin. destruct (outer_edges_spec a) as [L B].
  apply bin_index_range; [exact L | apply B; exact Hin | exact Hb].
Qed.

Lemma count_if_cons {A : Type} (f : A -> bool) (v : A) (l : list A) :
  count_if f (v :: l) = ((if f v then 1 else 0) + count_if f l)%nat.
Proof. unfold count_if. cbn [filter]. destruct (f v); reflexivity. Qed.

Lemma list_sum_map_add {A : Type} (f g : A -> nat) (l : list A) :
  list_sum (map (fun k => (f k + g k)%nat) l)
  = (list_sum (map f l) + list_sum (map g l))%nat.
Proof.
  induction l as [|k l IH]; [reflexivity|].
  cbn [map]. change (list_sum (?x :: ?r)) with (x + list_sum r)%nat.
  rewrite IH. lia.
Qed.

Lemma list_sum_indicator_seq (i start len : nat) :
  list_sum (map (fun k => if (i =? k)%nat then 1 else 0)%nat (seq start len))
  = if ((start <=? i) && (i <? start + len))%nat then 1%nat else 0%nat.
Proof.
  revert start. induction len as [|len IH]; intros start.
  - cbn [seq map]. change (list_sum []) with 0%nat.
    destruct (start <=? i)%nat eqn:E1; [|reflexivity].
    destruct (i <? start + 0)%nat eqn:E2; [|reflexivity].
    apply Nat.leb_le in E1. apply Nat.ltb_lt in E2. lia.
  - cbn [seq map]. change (list_sum (?x :: ?r)) with (x + list_sum r)%nat.
    rewrite IH.
    destruct (i =? start)%nat eqn:E0;
      destruct (S start <=? i)%nat eqn:E1;
      destruct (i <? S start + len)%nat eqn:E2;
      destruct (start <=? i)%nat eqn:E3;
      destruct (i <? start + S len)%nat eqn:E4; cbn; try reflexivity;
      repeat match goal with
             | H : (_ =? _)%nat = true |- _ => apply Nat.eqb_eq in H
             | H : (_ =? _)%nat = false |- _ => apply Nat.eqb_neq in H
             | H : (_ <=? _)%nat = true |- _ => apply Nat.leb_le in H
             | H : (_ <=? _)%nat = false |- _ => apply Nat.leb_gt in H
             | H : (_ <? _)%nat = true |- _ => apply Nat.ltb_lt in H
             | H : (_ <? _)%nat = false |- _ => apply Nat.ltb_ge in H
             end; lia.
Qed.

Lemma list_sum_indicator_zrange (i n : Z) :
  (0 <= i < n)%Z ->
  list_sum (map (fun k => if (i =? k)%Z then 1 else 0)%nat (zrange n)) = 1%nat.
Proof.
  intros Hi. unfold zrange. rewrite map_map.
  rewrite (map_ext _ (fun k => if (Z.to_nat i =? k)%nat then 1%nat else 0%nat)).
  - rewrite list_sum_indicator_seq.
    replace ((0 <=? Z.to_nat i)%nat && (Z.to_nat i <? 0 + Z.to_nat n)%nat)
      with true; [reflexivity|].
    symmetry. apply andb_true_intro. split;
      [apply Nat.leb_le | apply Nat.ltb_lt]; lia.
  - intros k. destruct (i =? Z.of_nat k)%Z eqn:E1;
      destruct (Z.to_nat i =? k)%nat eqn:E2; try reflexivity.
    + apply Z.eqb_eq in E1. apply Nat.eqb_neq in E2. lia.
    + apply Z.eqb_neq in E1. apply Nat.eqb_eq in E2. lia.
Qed.

(** Counting a list by the value of [f], over all values of a range that
    holds every [f v], accounts for each element once. *)
Lemma count_by_bin_total {A : Type} (f : A -> Z) (n : Z) (l : list A) :
  (forall v, In v l -> (0 <= f v < n)%Z) ->
  list_sum (map (fun k => count_if (fun v => (f v =? k)%Z) l) (zrange n)) = length l.
Proof.
  induction l as [|v l IH]; intros Hall.
  - cbn [length]. induction (zrange n) as [|k ks IHk]; [reflexivity|].
    cbn [map]. change (list_sum (?x :: ?r)) with (x + list_sum r)%nat.
    rewrite IHk. reflexivity.
  - rewrite (map_ext _ (fun k => ((if (f v =? k)%Z then 1 else 0)
                                  + count_if (fun u => (f u =? k)%Z) l)%nat))
      by (intros k; exact (count_if_cons (fun u => (f u =? k)%Z) v l)).
    rewrite list_sum_map_add, IH by (intros u Hu; apply Hall; right; exact Hu).
    rewrite list_sum_indicator_zrange by (apply Hall; left; reflexivity).
    reflexivity.
Qed.

Lemma histogram_total (a : list Q) (bins : Z) (counts : list nat) :
  histogram a bins = Ok counts ->
  length counts = Z.to_nat bins /\ list_sum counts = length a.
Proof.
  unfold histogram. destruct (bins <? 1)%Z eqn:E; [discriminate|].
  apply Z.ltb_ge in E.
  pose proof (fun v => bin_index_in_range a bins v E) as B.
  destruct (outer_edges a) as [lo hi]. cbn [fst snd] in B.
  intros [= <-]. split.
  - rewrite length_map. apply zrange_length.
  - apply count_by_bin_total. intros v Hv. apply B. exact Hv.
Qed.

(** ** The entropy estimator for any bin count *)

Lemma INR_to_nat (z : Z) : (0 <= z)%Z -> INR (Z.to_nat z) = IZR z.
Proof. intros Hz. rewrite INR_IZR_INZ, Z2Nat.id by exact Hz. reflexivity. Qed.

(** X1: with at least two bins the normalised entropy is, for every sample
    of finite values and every noise draw, a number that is not negative:
    the estimator neither raises nor returns NaN. *)
Theorem entropy_normalized_defined (randn : nat -> Q) (x : list Q) (bins : Z) :
  (2 <= bins)%Z ->
  exists r, _shannon_entropy randn x bins true = Ok (Val r) /\ (0 <= r)%R.
Proof.
  intros Hb.
  destruct (shannon_entropy_normalized randn x bins ltac:(lia)) as [counts [_ [L S]]].
  assert (Ln : INR (length counts) = IZR bins) by (rewrite L; apply INR_to_nat; lia).
  assert (P : (0 < log2 (INR (length counts)))%R).
  { apply log2_pos. rewrite Ln. apply IZR_lt. lia. }
  replace (Rltb 0 (log2 (INR (length counts)))) with true in S
    by (symmetry; apply Rltb_true; exact P).
  eexists. split; [exact S|].
  pose proof (H_nonneg counts) as N0.
  apply Rmult_le_pos; [exact N0 | left; apply Rinv_0_lt_compat; exact P].
Qed.

Lemma entropy_normalized_defined_witness :
  exists r, _shannon_entropy no_noise [1 # 1; 2 # 1; 4 # 1] 2 true = Ok (Val r)
            /\ (0 <= r)%R.
Proof. apply (entropy_normalized_defined no_noise [1 # 1; 2 # 1; 4 # 1] 2). lia. Defined.

(** X2: without normalisation the estimator returns the raw entropy of the
    histogram, a number that is not negative, for any positive bin count;
    one bin is enough, since nothing is divided. *)
Theorem entropy_raw_defined (randn : nat -> Q) (x : list Q) (bins : Z) :
  (1 <= bins)%Z ->
  exists counts,
    histogram (if allclose_0 (np_std x) then add_noise randn 0 x else x) bins
    = Ok counts /\
    _shannon_entropy randn x bins false = Ok (Val (H counts)) /\ (0 <= H counts)%R.
Proof.
  intros Hb. unfold _shannon_entropy.
  destruct (histogram_Ok (if allclose_0 (np_std x) then add_noise randn 0 x else x)
              bins Hb) as [counts [E L]].
  rewrite E. cbn [bind negb]. exists counts.
  split; [reflexivity|]. split; [reflexivity | apply H_nonneg].
Qed.

Lemma entropy_raw_defined_witness :
  exists counts,
    histogram (if allclose_0 (np_std [1 # 1; 2 # 1; 4 # 1])
               then add_noise no_noise 0 [1 # 1; 2 # 1; 4 # 1]
               else [1 # 1; 2 # 1; 4 # 1]) 1
    = Ok counts /\
    _shannon_entropy no_noise [1 # 1; 2 # 1; 4 # 1] 1 false = Ok (Val (H counts))
    /\ (0 <= H counts)%R.
Proof. apply (entropy_raw_defined no_noise [1 # 1; 2 # 1; 4 # 1] 1). lia. Defined.

(** ** Samples of fewer than two values *)

Lemma Rsum_all_zero {A : Type} (f : A -> R) (l : list A) :
  (forall a, In a l -> f a = 0%R) -> Rsum (map f l) = 0%R.
Proof.
  induction l as [|a l IH]; intros Hall; [reflexivity|].
  cbn [map]. change (Rsum (?x :: ?r)) with (x + Rsum r)%R.
  rewrite (Hall a (or_introl eq_refl)), IH by (intros b Hb; apply Hall; right; exact Hb).
  lra.
Qed.

Lemma Hterm_full (T : R) (c : nat) : (0 < T)%R -> INR c = T -> Hterm T c = 0%R.
Proof.
  intros HT E. unfold Hterm. rewrite E.
  replace (T / T)%R with 1%R by (field; lra).
  unfold log2. rewrite ln_1. destruct (Rltb 0 1); [|reflexivity].
  unfold Rdiv. ring.
Qed.

(** A count vector whose occupied bins all hold the whole sample has
    entropy zero. *)
Lemma H_single_bin (counts : list nat) :
  (forall c, In c counts -> c = 0%nat \/ c = list_sum counts) -> H counts = 0%R.
Proof.
  intros Hall. destruct (Nat.eq_dec (list_sum counts) 0) as [Z0|NZ].
  - apply H_zero_total. exact Z0.
  - rewrite H_as_terms. apply Rsum_all_zero. intros c Hc.
    destruct (Hall c Hc) as [->| ->].
    + apply Hterm_zero_count.
    + apply Hterm_full; [apply lt_0_INR; lia | reflexivity].
Qed.

Lemma add_noise_length (randn : nat -> Q) (i : nat) (x : list Q) :
  length (add_noise randn i x) = length x.
Proof.
  revert i. induction x as [|v x IH]; intros i; cbn; [reflexivity|].
  rewrite IH. reflexivity.
Qed.

Lemma H_histogram_short (a : list Q) (bins : Z) (counts : list nat) :
  (length a <= 1)%nat -> histogram a bins = Ok counts -> H counts = 0%R.
Proof.
  intros Hlen E. apply histogram_total in E. destruct E as [_ S].
  apply H_single_bin. intros c Hc. pose proof (In_le_list_sum c counts Hc). lia.
Qed.

(** X3: a sample of fewer than two values has entropy 0, normalised (for
    two bins or more) or raw, whatever the noise; nothing raises. *)
Theorem entropy_short_sample (randn : nat -> Q) (x : list Q) (bins : Z) :
  (length x <= 1)%nat -> (2 <= bins)%Z ->
  _shannon_entropy randn x bins true = Ok (Val 0) /\
  _shannon_entropy randn x bins false = Ok (Val 0).
Proof.
  intros Hlen Hb.
  set (x' := if allclose_0 (np_std x) then add_noise randn 0 x else x).
  assert (Hlen' : (length x' <= 1)%nat).
  { unfold x'. destruct (allclose_0 (np_std x));
      [rewrite add_noise_length|]; exact Hlen. }
  destruct (histogram_Ok x' bins ltac:(lia)) as [counts [E L]].
  pose proof (H_histogram_short x' bins counts Hlen' E) as H0.
  unfold _shannon_entropy. fold x'. rewrite E. cbn [bind negb]. rewrite H0.
  split; [|reflexivity].
  replace (Rltb 0 (log2 (INR (length counts)))) with true.
  - f_equal. f_equal. unfold Rdiv. ring.
  - symmetry. apply Rltb_true. apply log2_pos.
    rewrite L, INR_to_nat by lia. apply IZR_lt. lia.
Qed.

Lemma entropy_short_sample_witness :
  _shannon_entropy no_noise [7 # 2] 30 true = Ok (Val 0) /\
  _shannon_entropy no_noise [7 # 2] 30 false = Ok (Val 0).
Proof. apply (entropy_short_sample no_noise [7 # 2] 30); cbn; lia. Defined.

(** ** The slices of the entry point *)

Lemma norm_index_bounds (len k : Z) :
  (0 <= len)%Z -> (0 <= norm_index len k <= len)%Z.
Proof.
  intros Hl. unfold norm_index. destruct (k <? 0)%Z eqn:E; [apply Z.ltb_lt in E|]; lia.
Qed.

Lemma slice_from_length {A : Type} (l : list A) (k : Z) :
  Z.of_nat (length (slice_from l k))
  = (Z.of_nat (length l) - norm_index (Z.of_nat (length l)) k)%Z.
Proof.
  unfold slice_from. rewrite length_skipn.
  pose proof (norm_index_bounds (Z.of_nat (length l)) k (Nat2Z.is_nonneg _)). lia.
Qed.

Lemma slice_to_length {A : Type} (l : list A) (k : Z) :
  Z.of_nat (length (slice_to l k)) = norm_index (Z.of_nat (length l)) k.
Proof.
  unfold slice_to. rewrite length_firstn.
  pose proof (norm_index_bounds (Z.of_nat (length l)) k (Nat2Z.is_nonneg _)). lia.
Qed.

(** X4: for a lag other than zero, positive or negative, [returns[lag:]]
    and [returns[:-lag]] have the same length, namely
    [max (len - |lag|) 0] for a positive lag and [min |lag| len] for a
    negative one. *)
Theorem lagged_slices_same_length {A : Type} (returns : list A) (mi_lag : Z) :
  mi_lag <> 0%Z ->
  length (slice_from returns mi_lag) = length (slice_to returns (- mi_lag)) /\
  Z.of_nat (length (slice_from returns mi_lag))
  = if (0 <? mi_lag)%Z
    then Z.max (Z.of_nat (length returns) - mi_lag) 0
    else Z.min (- mi_lag) (Z.of_nat (length returns)).
Proof.
  intros Hk.
  pose proof (slice_from_length returns mi_lag) as F.
  pose proof (slice_to_length returns (- mi_lag)) as T.
  unfold norm_index in F, T.
  destruct (0 <? mi_lag)%Z eqn:E0;
    destruct (mi_lag <? 0)%Z eqn:E1; destruct (- mi_lag <? 0)%Z eqn:E2;
    try apply Z.ltb_lt in E0; try apply Z.ltb_ge in E0;
    try apply Z.ltb_lt in E1; try apply Z.ltb_ge in E1;
    try apply Z.ltb_lt in E2; try apply Z.ltb_ge in E2; split; lia.
Qed.

Lemma lagged_slices_same_length_witness :
  length (slice_from [1; 2; 3; 4; 5]%Z (-2)) = length (slice_to [1; 2; 3; 4; 5]%Z (- -2))
  /\ Z.of_nat (length (slice_from [1; 2; 3; 4; 5]%Z (-2)))
     = if (0 <? -2)%Z
       then Z.max (Z.of_nat (length [1; 2; 3; 4; 5]%Z) - -2) 0
       else Z.min (- -2) (Z.of_nat (length [1; 2; 3; 4; 5]%Z)).
Proof. apply (lagged_slices_same_length [1; 2; 3; 4; 5]%Z (-2)). lia. Defined.

(** X5: a negative lag [-k] with [0 < k < len] selects exactly the slices
    of the positive lag [len - k]: the last [k] values against the first
    [k]; the entry point returns the same for both. *)
Theorem negative_lag_is_complementary_lag
    (polyfit_slope : list R -> list R -> result pyfloat) (randn : nat -> Q)
    (returns : list Q) (bins k : Z) :
  (0 < k < Z.of_nat (length returns))%Z ->
  slice_from returns (- k) = slice_from returns (Z.of_nat (length returns) - k) /\
  slice_to returns (- - k) = slice_to returns (- (Z.of_nat (length returns) - k)) /\
  detect_risk_factors polyfit_slope randn returns bins (- k)
  = detect_risk_factors polyfit_slope randn returns bins
      (Z.of_nat (length returns) - k).
Proof.
  intros Hk.
  assert (F : slice_from returns (- k)
              = slice_from returns (Z.of_nat (length returns) - k)).
  { unfold slice_from, norm_index.
    replace (- k <? 0)%Z with true by (symmetry; apply Z.ltb_lt; lia).
    replace (Z.of_nat (length returns) - k <? 0)%Z with false
      by (symmetry; apply Z.ltb_ge; lia).
    f_equal. lia. }
  assert (T : slice_to returns (- - k)
              = slice_to returns (- (Z.of_nat (length returns) - k))).
  { unfold slice_to, norm_index.
    replace (- - k <? 0)%Z with false by (symmetry; apply Z.ltb_ge; lia).
    replace (- (Z.of_nat (length returns) - k) <? 0)%Z with true
      by (symmetry; apply Z.ltb_lt; lia).
    f_equal. lia. }
  split; [exact F|]. split; [exact T|].
  unfold detect_risk_factors. rewrite F, T. reflexivity.
Qed.

Lemma negative_lag_is_complementary_lag_witness :
  slice_from [1 # 1; 2 # 1; 3 # 1; 4 # 1; 5 # 1] (- 2)
  = slice_from [1 # 1; 2 # 1; 3 # 1; 4 # 1; 5 # 1]
      (Z.of_nat (length [1 # 1; 2 # 1; 3 # 1; 4 # 1; 5 # 1]) - 2) /\
  slice_to [1 # 1; 2 # 1; 3 # 1; 4 # 1; 5 # 1] (- - 2)
  = slice_to [1 # 1; 2 # 1; 3 # 1; 4 # 1; 5 # 1]
      (- (Z.of_nat (length [1 # 1; 2 # 1; 3 # 1; 4 # 1; 5 # 1]) - 2)) /\
  detect_risk_factors ols_slope no_noise [1 # 1; 2 # 1; 3 # 1; 4 # 1; 5 # 1] 30 (- 2)
  = detect_risk_factors ols_slope no_noise [1 # 1; 2 # 1; 3 # 1; 4 # 1; 5 # 1] 30
      (Z.of_nat (length [1 # 1; 2 # 1; 3 # 1; 4 # 1; 5 # 1]) - 2).
Proof.
  apply (negative_lag_is_complementary_lag ols_slope no_noise
           [1 # 1; 2 # 1; 3 # 1; 4 # 1; 5 # 1] 30 2).
  cbn. lia.
Defined.

(** ** Degenerate inputs of the mutual information *)

Lemma mutual_information_unfold (x y : list Q) (bins : Z) :
  length x = length y -> (1 <= bins)%Z ->
  exists counts_x counts_y counts_xy,
    histogram x bins = Ok counts_x /\
    histogram y bins = Ok counts_y /\
    histogram2d x y bins = Ok counts_xy /\
    _mutual_information_norm x y bins
    = Ok (if Rltb 0 (H counts_x)
          then Val ((H counts_x + H counts_y - H (ravel counts_xy)) / H counts_x)
          else NaN).
Proof.
  intros Hl Hb.
  destruct (histogram_Ok x bins Hb) as [cx [Ex _]].
  destruct (histogram_Ok y bins Hb) as [cy [Ey _]].
  destruct (histogram2d_Ok x y bins Hl Hb) as [cxy Exy].
  exists cx, cy, cxy. repeat split; try assumption.
  unfold _mutual_information_norm. rewrite Ex, Ey, Exy. reflexivity.
Qed.

Lemma Rltb_0_0 : Rltb 0 0 = false.
Proof. apply Rltb_false. lra. Qed.

Lemma count_if_all {A : Type} (g : A -> bool) (l : list A) :
  (forall v, In v l -> g v = true) -> count_if g l = length l.
Proof.
  induction l as [|v l IH]; intros Hall; [reflexivity|].
  rewrite count_if_cons, (Hall v (or_introl eq_refl)), IH
    by (intros u Hu; apply Hall; right; exact Hu).
  reflexivity.
Qed.

Lemma count_if_none {A : Type} (g : A -> bool) (l : list A) :
  (forall v, In v l -> g v = false) -> count_if g l = 0%nat.
Proof.
  induction l as [|v l IH]; intros Hall; [reflexivity|].
  rewrite count_if_cons, (Hall v (or_introl eq_refl)), IH
    by (intros u Hu; apply Hall; right; exact Hu).
  reflexivity.
Qed.

(** The histogram of a sample of equal values has one occupied bin. *)
Lemma H_histogram_constant (a : list Q) (bins : Z) (counts : list nat) :
  (forall u v, In u a -> In v a -> (u == v)%Q) ->
  histogram a bins = Ok counts -> H counts = 0%R.
Proof.
  intros Heq E. pose proof (histogram_total a bins counts E) as [_ S].
  apply H_single_bin. rewrite S. intros c Hc.
  unfold histogram in E. destruct (bins <? 1)%Z; [discriminate|].
  destruct (outer_edges a) as [lo hi]. injection E as <-.
  apply in_map_iff in Hc. destruct Hc as [k [<- _]].
  destruct a as [|u0 rest]; [left; reflexivity|].
  destruct (bin_index lo hi bins u0 =? k)%Z eqn:E0.
  - right. apply count_if_all. intros v Hv.
    rewrite <- E0. f_equal. apply bin_index_comp.
    rewrite (Heq v u0 Hv (or_introl eq_refl)). reflexivity.
  - left. apply count_if_none. intros v Hv.
    rewrite <- E0. f_equal. apply bin_index_comp.
    rewrite (Heq v u0 Hv (or_introl eq_refl)). reflexivity.
Qed.

(** X6: when all values of the first input are equal its entropy is zero
    and the normalised mutual information is NaN, for every second input of
    the same length and every positive bin count. *)
Theorem mutual_information_constant_first (x y : list Q) (bins : Z) :
  (forall u v, In u x -> In v x -> (u == v)%Q) ->
  length x = length y -> (1 <= bins)%Z ->
  _mutual_information_norm x y bins = Ok NaN.
Proof.
  intros Heq Hl Hb.
  destruct (mutual_information_unfold x y bins Hl Hb) as [cx [cy [cxy [Ex [_ [_ M]]]]]].
  rewrite M, (H_histogram_constant x bins cx Heq Ex), Rltb_0_0. reflexivity.
Qed.

Lemma mutual_information_constant_first_witness :
  _mutual_information_norm [2 # 1; 2 # 1; 4 # 2] [0 # 1; 1 # 1; 5 # 1] 30 = Ok NaN.
Proof.
  apply (mutual_information_constant_first [2 # 1; 2 # 1; 4 # 2] [0 # 1; 1 # 1; 5 # 1] 30).
  - intros u v Hu Hv. cbn [In] in Hu, Hv.
    repeat (destruct Hu as [<-|Hu]); try contradiction;
      repeat (destruct Hv as [<-|Hv]); try contradiction; reflexivity.
  - reflexivity.
  - lia.
Defined.

(** ** Lags that leave nothing to compare *)

Lemma mutual_information_empty (bins : Z) :
  (1 <= bins)%Z -> _mutual_information_norm [] [] bins = Ok NaN.
Proof.
  intros Hb.
  destruct (mutual_information_unfold [] [] bins eq_refl Hb)
    as [cx [cy [cxy [Ex [_ [_ M]]]]]].
  rewrite M, (H_histogram_constant [] bins cx) , Rltb_0_0; [reflexivity | | exact Ex].
  intros u v [].
Qed.

Lemma classify_nan_mi (e h : pyfloat) :
  classify e NaN h = chaotic_memory \/ classify e NaN h = latent.
Proof.
  unfold classify. cbn [lt Score_pyfloat pyfloat_lt lit_0_05].
  rewrite andb_false_r.
  destruct (gt h lit_0_5 && gt e lit_0_9); [left | right]; reflexivity.
Qed.

(** X7: a positive lag that is at least the length of the series leaves
    two empty slices; the mutual-information field is then NaN and the flag
    can only be chaotic_memory or latent. *)
Theorem lag_beyond_series
    (polyfit_slope : list R -> list R -> result pyfloat) (randn : nat -> Q)
    (returns : list Q) (bins mi_lag : Z) :
  (1 <= bins)%Z -> (0 < mi_lag)%Z -> (Z.of_nat (length returns) <= mi_lag)%Z ->
  slice_from returns mi_lag = [] /\
  slice_to returns (- mi_lag) = [] /\
  detect_risk_factors polyfit_slope randn returns bins mi_lag
  = (e <- _shannon_entropy randn returns bins true ;;
     h <- _hurst_exponent_rs polyfit_slope returns 16 ;;
     Ok {| entropy := e; mi_norm := NaN; hurst := h;
           risk_flag := classify e NaN h |}) /\
  (forall e h : pyfloat,
      classify e NaN h = chaotic_memory \/ classify e NaN h = latent).
Proof.
  intros Hb H0 Hk.
  assert (F : slice_from returns mi_lag = []).
  { apply length_zero_iff_nil. pose proof (slice_from_length returns mi_lag) as L.
    unfold norm_index in L.
    replace (mi_lag <? 0)%Z with false in L by (symmetry; apply Z.ltb_ge; lia).
    lia. }
  assert (T : slice_to returns (- mi_lag) = []).
  { apply length_zero_iff_nil. pose proof (slice_to_length returns (- mi_lag)) as L.
    unfold norm_index in L.
    replace (- mi_lag <? 0)%Z with true in L by (symmetry; apply Z.ltb_lt; lia).
    lia. }
  split; [exact F|]. split; [exact T|]. split; [|apply classify_nan_mi].
  unfold detect_risk_factors. rewrite F, T, (mutual_information_empty bins Hb).
  reflexivity.
Qed.

Lemma lag_beyond_series_witness :
  slice_from [1 # 100; -2 # 100] 2 = [] /\
  slice_to [1 # 100; -2 # 100] (- 2) = [] /\
  detect_risk_factors ols_slope no_noise [1 # 100; -2 # 100] 30 2
  = (e <- _shannon_entropy no_noise [1 # 100; -2 # 100] 30 true ;;
     h <- _hurst_exponent_rs ols_slope [1 # 100; -2 # 100] 16 ;;
     Ok {| entropy := e; mi_norm := NaN; hurst := h;
           risk_flag := classify e NaN h |}) /\
  (forall e h : pyfloat,
      classify e NaN h = chaotic_memory \/ classify e NaN h = latent).
Proof.
  apply (lag_beyond_series ols_slope no_noise [1 # 100; -2 # 100] 30 2); cbn; lia.
Defined.

Lemma RS_empty_short_series (x : list Q) (min_window : Z) :
  (length x < 2)%nat ->
  for_each (window_RS (centred x))
           (window_sizes min_window (Z.of_nat (length (centred x))))
  = Ok [].
Proof.
  intros Hlen. apply RS_empty. intros w i Hw H2 _. exfalso.
  unfold window_sizes in Hw. apply in_map_iff in Hw. destruct Hw as [k [Hk _]].
  assert (M0 : (Z.of_nat (length x) / 2 = 0)%Z) by (apply Z.div_small; lia).
  rewrite M0 in Hk.
  pose proof (size_at_degenerate min_window 0 k) as D.
  rewrite andb_false_r in D. specialize (D eq_refl). cbv zeta in D. lia.
Qed.

(** X8: on the empty series the entry point raises nothing, for any lag
    and two bins or more: the entropy is 0, the mutual information and the
    Hurst exponent are NaN and the flag is latent. *)
Theorem detect_empty_series
    (polyfit_slope : list R -> list R -> result pyfloat) (randn : nat -> Q)
    (bins mi_lag : Z) :
  (2 <= bins)%Z ->
  detect_risk_factors polyfit_slope randn [] bins mi_lag
  = Ok {| entropy := Val 0; mi_norm := NaN; hurst := NaN; risk_flag := latent |}.
Proof.
  intros Hb. unfold detect_risk_factors.
  assert (E : _shannon_entropy randn [] bins true = Ok (Val 0)).
  { unfold _shannon_entropy. cbn [np_std allclose_0].
    destruct (histogram_Ok [] bins ltac:(lia)) as [counts [Ec L]].
    rewrite Ec. cbn [bind negb].
    rewrite (H_histogram_short [] bins counts) by (cbn; lia || exact Ec).
    replace (Rltb 0 (log2 (INR (length counts)))) with true.
    - do 2 f_equal. unfold Rdiv. ring.
    - symmetry. apply Rltb_true. apply log2_pos.
      rewrite L, INR_to_nat by lia. apply IZR_lt. lia. }
  assert (S1 : slice_from (@nil Q) mi_lag = []) by (unfold slice_from; apply skipn_nil).
  assert (S2 : slice_to (@nil Q) (- mi_lag) = []) by (unfold slice_to; apply firstn_nil).
  rewrite E, S1, S2, (mutual_information_empty bins ltac:(lia)). cbn [bind].
  unfold _hurst_exponent_rs.
  rewrite (RS_empty_short_series [] 16) by (cbn; lia). cbn [bind].
  reflexivity.
Qed.

Lemma detect_empty_series_witness :
  detect_risk_factors ols_slope no_noise [] 30 1
  = Ok {| entropy := Val 0; mi_norm := NaN; hurst := NaN; risk_flag := latent |}.
Proof. apply (detect_empty_series ols_slope no_noise 30 1). lia. Defined.

(** ** The R/S loop of the Hurst estimator *)

Lemma hurst_short_series_witness :
  _hurst_exponent_rs ols_slope [3 # 100] 16 = Ok NaN.
Proof. apply (hurst_short_series ols_slope [3 # 100] 16). cbn. lia. Defined.

Lemma Qsum_all_eq (c : Q) (l : list Q) :
  (forall v, In v l -> (v == c)%Q) -> (Qsum l == Qlen l * c)%Q.
Proof.
  unfold Qlen. induction l as [|v l IH]; intros Hall.
  - cbn. ring.
  - cbn [Qsum fold_right length]. fold (Qsum l).
    rewrite IH by (intros u Hu; apply Hall; right; exact Hu).
    rewrite (Hall v (or_introl eq_refl)).
    rewrite Nat2Z.inj_succ. unfold Z.succ. rewrite inject_Z_plus. ring.
Qed.

Lemma Qlen_pos (l : list Q) : l <> [] -> (0 < Qlen l)%Q.
Proof.
  intros NE. unfold Qlen. change 0%Q with (inject_Z 0). rewrite <- Zlt_Qlt.
  destruct l; [congruence | cbn [length]; lia].
Qed.

Lemma np_mean_all_eq (c : Q) (l : list Q) :
  l <> [] -> (forall v, In v l -> (v == c)%Q) -> (np_mean l == c)%Q.
Proof.
  intros NE Hall. unfold np_mean. rewrite (Qsum_all_eq c l Hall).
  pose proof (Qlen_pos l NE) as P. field. intros Z0. rewrite Z0 in P.
  apply (Qlt_irrefl 0). exact P.
Qed.

Lemma variance_all_eq (l : list Q) :
  (forall u v, In u l -> In v l -> (u == v)%Q) -> (variance l == 0)%Q.
Proof.
  intros Heq. destruct l as [|u0 rest]; [reflexivity|].
  unfold variance.
  assert (M : (np_mean (u0 :: rest) == u0)%Q).
  { apply np_mean_all_eq; [discriminate|]. intros v Hv.
    apply Heq; [exact Hv | left; reflexivity]. }
  apply np_mean_all_eq.
  - discriminate.
  - intros d Hd. apply in_map_iff in Hd. destruct Hd as [v [<- Hv]].
    rewrite M, (Heq v u0 Hv (or_introl eq_refl)). ring.
Qed.

Lemma In_slice {A : Type} (l : list A) (i j : Z) (v : A) :
  In v (slice l i j) -> In v l.
Proof.
  unfold slice. intros Hin.
  set (i' := Z.to_nat (norm_index (Z.of_nat (length l)) i)) in *.
  set (j' := Z.to_nat (norm_index (Z.of_nat (length l)) j)) in *.
  rewrite <- (firstn_skipn i' l). apply in_or_app. right.
  rewrite <- (firstn_skipn (j' - i') (skipn i' l)). apply in_or_app. left.
  exact Hin.
Qed.

(** X10: a series whose values are all equal has no segment of positive
    standard deviation, so its Hurst exponent is NaN for every minimum
    window, and nothing raises. *)
Theorem hurst_constant_series
    (polyfit_slope : list R -> list R -> result pyfloat) (x : list Q) (min_window : Z) :
  (forall u v, In u x -> In v x -> (u == v)%Q) ->
  _hurst_exponent_rs polyfit_slope x min_window = Ok NaN.
Proof.
  intros Heq. unfold _hurst_exponent_rs. rewrite RS_empty; [reflexivity|].
  intros w i _ _ _. apply std_not_positive. apply Qeq_bool_iff.
  apply variance_all_eq. intros u v Hu Hv.
  apply In_slice in Hu. apply In_slice in Hv.
  unfold centred in Hu, Hv.
  apply in_map_iff in Hu. destruct Hu as [u' [<- Hu]].
  apply in_map_iff in Hv. destruct Hv as [v' [<- Hv]].
  rewrite (Heq u' v' Hu Hv). reflexivity.
Qed.

Lemma hurst_constant_series_witness :
  _hurst_exponent_rs ols_slope (repeat (1 # 100) 40) 16 = Ok NaN.
Proof.
  apply (hurst_constant_series ols_slope (repeat (1 # 100) 40) 16).
  intros u v Hu Hv. apply repeat_spec in Hu. apply repeat_spec in Hv.
  subst u v. reflexivity.
Defined.

Lemma for_each_Forall {A B : Type} (body : A -> result (list B))
    (P : A -> B -> Prop) (l : list A) :
  (forall a, In a l -> exists out, body a = Ok out /\ Forall (P a) out) ->
  exists outs, for_each body l = Ok outs /\
               Forall (fun b => exists a, In a l /\ P a b) outs.
Proof.
  induction l as [|a l IH]; intros Hall.
  - exists []. split; [reflexivity | constructor].
  - destruct (Hall a (or_introl eq_refl)) as [out [Ea Pa]].
    destruct IH as [outs [El Pl]]; [intros b Hb; apply Hall; right; exact Hb|].
    exists (out ++ outs). cbn [for_each]. rewrite Ea, El. split; [reflexivity|].
    apply Forall_app. split.
    + eapply Forall_impl; [|exact Pa]. intros b Hb. exists a. split; [left; reflexivity | exact Hb].
    + eapply Forall_impl; [|exact Pl]. intros b [a' [Ha' Hb]].
      exists a'. split; [right; exact Ha' | exact Hb].
Qed.

Lemma Qsum_map_sub (m : Q) (l : list Q) :
  (Qsum (map (fun v => v - m) l) == Qsum l - Qlen l * m)%Q.
Proof.
  unfold Qlen. induction l as [|v l IH].
  - cbn. ring.
  - cbn [map Qsum fold_right length]. fold (Qsum l).
    fold (Qsum (map (fun v => v - m) l)). rewrite IH.
    rewrite Nat2Z.inj_succ. unfold Z.succ. rewrite inject_Z_plus. ring.
Qed.

(** The deviations from the mean of a segment sum to zero. *)
Lemma Qsum_deviations (seg : list Q) :
  seg <> [] -> (Qsum (map (fun v => v - np_mean seg) seg) == 0)%Q.
Proof.
  intros NE. rewrite Qsum_map_sub. unfold np_mean.
  pose proof (Qlen_pos seg NE) as P. field. intros Z0. rewrite Z0 in P.
  apply (Qlt_irrefl 0). exact P.
Qed.

Lemma cumsum_from_last (acc : Q) (l : list Q) :
  l <> [] -> exists y, In y (cumsum_from acc l) /\ (y == acc + Qsum l)%Q.
Proof.
  revert acc. induction l as [|d l IH]; intros acc NE; [congruence|].
  destruct l as [|d' l'].
  - exists (acc + d)%Q. split; [left; reflexivity|]. cbn. ring.
  - destruct (IH (acc + d)%Q ltac:(discriminate)) as [y [Hy Ey]].
    exists y. split; [right; exact Hy|]. rewrite Ey.
    cbn [Qsum fold_right]. ring.
Qed.

Lemma cumsum_from_flat (acc : Q) (l : list Q) :
  (forall y, In y (cumsum_from acc l) -> (y == acc)%Q) ->
  forall d, In d l -> (d == 0)%Q.
Proof.
  revert acc. induction l as [|d0 l IH]; intros acc Hflat d Hd; [destruct Hd|].
  cbn [cumsum_from] in Hflat.
  assert (E0 : (d0 == 0)%Q).
  { pose proof (Hflat (acc + d0)%Q (or_introl eq_refl)) as E.
    apply (Qplus_inj_l _ _ acc). rewrite E. ring. }
  destruct Hd as [<-|Hd]; [exact E0|].
  apply (IH (acc + d0)%Q); [|exact Hd].
  intros y Hy. rewrite (Hflat y (or_intror Hy)), E0. ring.
Qed.

(** A segment whose cumulative deviations have no spread has zero
    variance. *)
Lemma flat_cumsum_zero_variance (seg : list Q) (y : Q) (Y : list Q) :
  cumsum (map (fun v => v - np_mean seg)%Q seg) = y :: Y ->
  (np_max y Y - np_min y Y <= 0)%Q -> (variance seg == 0)%Q.
Proof.
  intros EY Hr.
  assert (NE : seg <> []) by (intros ->; discriminate EY).
  pose proof (np_min_le y Y) as [m1 m2]. pose proof (np_max_ge y Y) as [M1 M2].
  assert (B : forall z, In z (y :: Y) -> (np_min y Y <= z <= np_max y Y)%Q).
  { intros z [<-|Hz]; split; auto. }
  destruct (cumsum_from_last 0 (map (fun v => v - np_mean seg)%Q seg))
    as [yl [Hyl Eyl]].
  { intros E. apply map_eq_nil in E. contradiction. }
  fold (cumsum (map (fun v => (v - np_mean seg)%Q) seg)) in Hyl.
  rewrite EY in Hyl. rewrite Qsum_deviations in Eyl by exact NE.
  assert (Hflat : forall z, In z (y :: Y) -> (z == 0)%Q).
  { intros z Hz. destruct (B z Hz) as [b1 b2]. destruct (B yl Hyl) as [c1 c2].
    assert (E0 : (yl == 0)%Q) by (rewrite Eyl; ring).
    Lqa.lra. }
  rewrite <- EY in Hflat. unfold cumsum in Hflat.
  pose proof (cumsum_from_flat 0 _ Hflat) as D.
  unfold variance. apply np_mean_all_eq.
  - intros E. apply map_eq_nil in E. contradiction.
  - intros q Hq. apply in_map_iff in Hq. destruct Hq as [v [<- Hv]].
    assert (Dv : (v - np_mean seg == 0)%Q).
    { apply D. apply in_map_iff. exists v. split; [reflexivity | exact Hv]. }
    rewrite Dv. ring.
Qed.

(** A non-empty segment raises nothing, and the value it appends, if any,
    is positive. *)
Lemma segment_rs_Ok (seg : list Q) :
  seg <> [] ->
  exists vals, segment_rs seg = Ok vals /\ Forall (fun r => (0 < r)%R) vals.
Proof.
  intros NE. unfold segment_rs.
  destruct (cumsum (map (fun v => (v - np_mean seg)%Q) seg)) as [|y Y] eqn:EY.
  { exfalso. apply (f_equal (@length Q)) in EY. unfold cumsum in EY.
    rewrite cumsum_from_length, length_map in EY.
    destruct seg; [congruence | discriminate EY]. }
  cbn [np_max_of np_min_of bind].
  destruct (np_std seg) as [|sd] eqn:Es; [exists []; split; [reflexivity | constructor]|].
  destruct (Rltb 0 sd) eqn:Ep; [|exists []; split; [reflexivity | constructor]].
  eexists. split; [reflexivity|]. constructor; [|constructor].
  apply Rltb_true in Ep.
  apply Rdiv_lt_0_compat; [|exact Ep].
  destruct (Qlt_le_dec 0 (np_max y Y - np_min y Y)) as [L|L].
  - apply Qlt_Rlt in L. replace (Q2R 0) with 0%R in L; [exact L|].
    unfold Q2R. cbn. lra.
  - exfalso. pose proof (flat_cumsum_zero_variance seg y Y EY L) as V0.
    unfold np_std in Es. destruct seg as [|s0 seg']; [congruence|].
    injection Es as Es. rewrite (Qeq_eqR _ _ V0) in Es.
    replace (Q2R 0) with 0%R in Es by (unfold Q2R; cbn; lra).
    rewrite sqrt_0 in Es. lra.
Qed.

Lemma Rsum_pos (l : list R) :
  l <> [] -> Forall (fun r => (0 < r)%R) l -> (0 < Rsum l)%R.
Proof.
  intros NE Hall. induction Hall as [|r l Hr Hl IH]; [congruence|].
  change (Rsum (r :: l)) with (r + Rsum l)%R.
  destruct l as [|r' l'].
  - cbn. lra.
  - specialize (IH ltac:(discriminate)). lra.
Qed.

Lemma Rmean_pos (l : list R) :
  l <> [] -> Forall (fun r => (0 < r)%R) l -> (0 < Rmean l)%R.
Proof.
  intros NE Hall. unfold Rmean. apply Rdiv_lt_0_compat.
  - apply Rsum_pos; assumption.
  - apply lt_0_INR. destruct l; [congruence | cbn; lia].
Qed.

Lemma rs_vals_of_Ok (x : list Q) (w : Z) :
  (2 <= w)%Z ->
  exists vals, rs_vals_of x w = Ok vals /\
               Forall (fun r => (0 < r)%R) vals /\
               (vals <> [] -> (w <= Z.of_nat (length x))%Z).
Proof.
  intros Hw. unfold rs_vals_of.
  destruct (for_each_Forall
              (fun i => segment_rs (slice x (i * w) ((i + 1) * w)))
              (fun _ r => (0 < r)%R) (zrange (Z.of_nat (length x) / w)))
    as [vals [E P]].
  { intros i Hi. apply In_zrange in Hi. apply segment_rs_Ok.
    intros E. apply (f_equal (@length Q)) in E.
    rewrite slice_segment_length in E; [cbn in E; lia | lia | lia |].
    pose proof (Z.mul_div_le (Z.of_nat (length x)) w ltac:(lia)). nia. }
  exists vals. split; [exact E|]. split.
  - eapply Forall_impl; [|exact P]. intros r [_ [_ Hr]]. exact Hr.
  - intros NE. destruct vals as [|r vals]; [congruence|].
    inversion P as [|? ? [i [Hi _]] _]. apply In_zrange in Hi.
    pose proof (Z.mul_div_le (Z.of_nat (length x)) w ltac:(lia)). nia.
Qed.

Lemma window_RS_Ok (x : list Q) (w : Z) :
  exists out, window_RS x w = Ok out /\
              Forall (fun p => fst p = w /\ (2 <= w <= Z.of_nat (length x))%Z
                               /\ (0 < snd p)%R) out.
Proof.
  unfold window_RS. destruct (w <? 2)%Z eqn:E.
  - exists []. split; [reflexivity | constructor].
  - apply Z.ltb_ge in E. unfold window_body.
    destruct (rs_vals_of_Ok x w E) as [vals [Ev [P B]]]. rewrite Ev. cbn [bind].
    destruct vals as [|r vals].
    + exists []. split; [reflexivity | constructor].
    + eexists. split; [reflexivity|]. constructor; [|constructor].
      cbn [fst snd]. split; [reflexivity|]. split.
      * split; [exact E | apply B; discriminate].
      * apply Rmean_pos; [discriminate | exact P].
Qed.

(** X11: the loop over the window sizes never raises.  Every pair it
    retains has a window size that is one of the generated sizes and lies
    between 2 and the length of the series, and a mean R/S that is not
    negative (a range divided by a positive deviation); [polyfit] is the
    only call that can raise, and it is only reached with at least one
    pair. *)
Theorem hurst_loop_never_raises (x : list Q) (min_window : Z) :
  let N := Z.of_nat (length x) in
  exists RS,
    for_each (window_RS (centred x)) (window_sizes min_window N) = Ok RS /\
    Forall (fun p => In (fst p) (window_sizes min_window N)
                     /\ (2 <= fst p <= N)%Z /\ (0 <= snd p)%R) RS /\
    forall polyfit_slope,
      _hurst_exponent_rs polyfit_slope x min_window
      = match RS with
        | [] => Ok NaN
        | _ => polyfit_slope (map (fun p => ln (IZR (fst p))) RS)
                             (map (fun p => ln (snd p)) RS)
        end.
Proof.
  intros N.
  assert (L : length (centred x) = length x) by (unfold centred; apply length_map).
  destruct (for_each_Forall (window_RS (centred x))
              (fun w p => fst p = w /\ (2 <= w <= N)%Z /\ (0 < snd p)%R)
              (window_sizes min_window N)) as [RS [E P]].
  { intros w _. destruct (window_RS_Ok (centred x) w) as [out [Eo Po]].
    exists out. split; [exact Eo|]. rewrite L in Po. exact Po. }
  exists RS. split; [exact E|]. split.
  - eapply Forall_impl; [|exact P]. intros p [w [Hw [-> [B S]]]].
    split; [exact Hw|]. split; [exact B | lra].
  - intros polyfit_slope. unfold _hurst_exponent_rs. rewrite L. fold N.
    rewrite E. cbn [bind]. destruct RS as [|p RS]; [reflexivity|].
    rewrite !map_map. reflexivity.
Qed.

(** * The mutual information of a series with itself *)

(** ** Finite sums *)

Lemma Rsum_cons (r : R) (l : list R) : Rsum (r :: l) = (r + Rsum l)%R.
Proof. reflexivity. Qed.

Lemma Rsum_map_ext_in {A : Type} (f g : A -> R) (l : list A) :
  (forall a, In a l -> f a = g a) -> Rsum (map f l) = Rsum (map g l).
Proof. intros E. rewrite (map_ext_in f g l E). reflexivity. Qed.

Lemma Rsum_app (l1 l2 : list R) : Rsum (l1 ++ l2) = (Rsum l1 + Rsum l2)%R.
Proof.
  induction l1 as [|r l1 IH]; [cbn [app]; change (Rsum []) with 0%R; lra|].
  cbn [app]. rewrite !Rsum_cons, IH. lra.
Qed.

Lemma Rsum_concat {A : Type} (f : A -> R) (ls : list (list A)) :
  Rsum (map f (concat ls)) = Rsum (map (fun l => Rsum (map f l)) ls).
Proof.
  induction ls as [|l ls IH]; [reflexivity|].
  cbn [concat map]. rewrite map_app, Rsum_app, Rsum_cons, IH. reflexivity.
Qed.

Lemma list_sum_concat (ls : list (list nat)) :
  list_sum (concat ls) = list_sum (map (@list_sum) ls).
Proof.
  induction ls as [|l ls IH]; [reflexivity|].
  cbn [concat map]. rewrite list_sum_app.
  change (list_sum (list_sum l :: map list_sum ls))
    with (list_sum l + list_sum (map list_sum ls))%nat.
  rewrite IH. reflexivity.
Qed.

(** ** Entropies of a table of counts and of a vector of counts *)

Lemma map_fst_combine {A B : Type} (x : list A) (y : list B) :
  length x = length y -> map fst (combine x y) = x.
Proof.
  revert y. induction x as [|u x IH]; intros [|w y] Hl; try discriminate; [reflexivity|].
  cbn [combine map fst]. rewrite IH by (cbn in Hl; lia). reflexivity.
Qed.

Lemma H_of_table (I J : list Z) (cell : Z -> Z -> nat) :
  H (ravel (map (fun i => map (fun j => cell i j) J) I))
  = Rsum (map (fun i =>
                 Rsum (map (fun j =>
                              Hterm (INR (list_sum
                                            (map (fun i0 => list_sum (map (cell i0) J)) I)))
                                    (cell i j)) J)) I).
Proof.
  rewrite H_as_terms. unfold ravel.
  rewrite list_sum_concat, Rsum_concat, !map_map.
  apply Rsum_map_ext_in. intros i _. rewrite map_map. reflexivity.
Qed.

Lemma H_of_margin (I : list Z) (m : Z -> nat) :
  H (map m I) = Rsum (map (fun i => Hterm (INR (list_sum (map m I))) (m i)) I).
Proof. rewrite H_as_terms, map_map. reflexivity. Qed.

(** ** A series against itself *)

Lemma in_combine_same {A : Type} (x : list A) (u w : A) :
  In (u, w) (combine x x) -> u = w.
Proof.
  induction x as [|v x IH]; intros Hin; [destruct Hin|].
  cbn [combine] in Hin. destruct Hin as [E|Hin]; [congruence | apply IH; exact Hin].
Qed.

Lemma Rsum_indicator_zrange (i n : Z) (a : R) :
  (0 <= i < n)%Z ->
  Rsum (map (fun k => if (i =? k)%Z then a else 0%R) (zrange n)) = a.
Proof.
  intros Hi.
  assert (G : forall l,
             Rsum (map (fun k => if (i =? k)%Z then a else 0%R) l)
             = (INR (list_sum (map (fun k => if (i =? k)%Z then 1 else 0)%nat l)) * a)%R).
  { induction l as [|k l IH]; [cbn; lra|].
    cbn [map]. rewrite Rsum_cons, IH.
    change (list_sum (?u :: ?r)) with (u + list_sum r)%nat. rewrite plus_INR.
    destruct (i =? k)%Z; cbn [INR]; lra. }
  rewrite G, list_sum_indicator_zrange by exact Hi. cbn [INR]. lra.
Qed.

(** X13: the normalised mutual information of a series with itself is 1
    when the series occupies more than one bin, and NaN when its entropy is
    zero. *)
Theorem mutual_information_self (x : list Q) (bins : Z) :
  (1 <= bins)%Z ->
  exists counts_x,
    histogram x bins = Ok counts_x /\
    _mutual_information_norm x x bins
    = Ok (if Rltb 0 (H counts_x) then Val 1 else NaN).
Proof.
  intros Hb.
  destruct (mutual_information_unfold x x bins eq_refl Hb)
    as [cx [cy [cxy [Ex [Ey [Exy M]]]]]].
  assert (cy = cx) by congruence. subst cy.
  exists cx. split; [exact Ex|]. rewrite M.
  assert (J : H (ravel cxy) = H cx).
  { clear M Ey. unfold histogram in Ex. unfold histogram2d in Exy.
    rewrite Nat.eqb_refl in Exy. cbn [negb] in Exy.
    destruct (bins <? 1)%Z eqn:Eb; [discriminate|].
    pose proof (fun v => bin_index_in_range x bins v Hb) as Bx.
    destruct (outer_edges x) as [lo hi]. cbn [fst snd] in Bx.
    injection Ex as <-. injection Exy as <-.
    set (fx := bin_index lo hi bins) in *. set (I := zrange bins).
    set (c := fun i => count_if (fun v => (fx v =? i)%Z) x).
    set (cell := fun i j => if (i =? j)%Z then c i else 0%nat).
    assert (Ec : forall i j,
               count_if (fun xy : Q * Q => (fx (fst xy) =? i)%Z && (fx (snd xy) =? j)%Z)
                        (combine x x)
               = cell i j).
    { intros i j. unfold cell, c. destruct (i =? j)%Z eqn:E.
      - apply Z.eqb_eq in E. subst j.
        rewrite <- (map_fst_combine x x eq_refl) at 3. rewrite count_if_map.
        apply count_if_ext_in. intros [u w] Hin.
        apply in_combine_same in Hin. subst w. cbn [fst snd]. apply andb_diag.
      - apply count_if_none. intros [u w] Hin.
        apply in_combine_same in Hin. subst w. cbn [fst snd].
        destruct (fx u =? i)%Z eqn:E1; [|reflexivity].
        destruct (fx u =? j)%Z eqn:E2; [|reflexivity].
        apply Z.eqb_eq in E1. apply Z.eqb_eq in E2. apply Z.eqb_neq in E. congruence. }
    rewrite (map_ext _ (fun i => map (fun j => cell i j) I))
      by (intros i; apply map_ext; intros j; apply Ec).
    fold I. change (map (fun k => count_if (fun v => (fx v =? k)%Z) x) I) with (map c I).
    rewrite H_of_table, H_of_margin.
    assert (Rs : forall i, In i I -> list_sum (map (cell i) I) = c i).
    { intros i Hi. apply In_zrange in Hi. unfold cell, I.
      apply INR_eq. rewrite <- Rsum_INR, map_map.
      rewrite (Rsum_map_ext_in _ (fun k => if (i =? k)%Z then INR (c i) else 0%R))
        by (intros k _; destruct (i =? k)%Z; reflexivity).
      apply Rsum_indicator_zrange. exact Hi. }
    rewrite (map_ext_in (fun i => list_sum (map (cell i) I)) c I Rs).
    apply Rsum_map_ext_in. intros i Hi. apply In_zrange in Hi.
    rewrite (Rsum_map_ext_in _
               (fun k => if (i =? k)%Z then Hterm (INR (list_sum (map c I))) (c i)
                         else 0%R)).
    - apply Rsum_indicator_zrange. exact Hi.
    - intros k _. unfold cell. destruct (i =? k)%Z; [reflexivity|].
      apply Hterm_zero_count. }
  rewrite J. destruct (Rltb 0 (H cx)) eqn:E; [|reflexivity].
  apply Rltb_true in E. do 2 f_equal. field. lra.
Qed.

Lemma mutual_information_self_witness :
  exists counts_x,
    histogram [0 # 1; 1 # 1; 3 # 1; 2 # 1] 30 = Ok counts_x /\
    _mutual_information_norm [0 # 1; 1 # 1; 3 # 1; 2 # 1] [0 # 1; 1 # 1; 3 # 1; 2 # 1] 30
    = Ok (if Rltb 0 (H counts_x) then Val 1 else NaN).
Proof. apply (mutual_information_self [0 # 1; 1 # 1; 3 # 1; 2 # 1] 30). lia. Defined.

(** * The entry point as a whole *)

(** X14: with two bins or more and a lag other than zero the entropy and
    mutual-information stages never raise on a series of finite values: the
    entropy field is a number that is not negative, the mutual-information
    field is what the estimator returns on the two slices, and the call
    raises only if the Hurst stage (that is, [polyfit]) does. *)
Theorem detect_raises_only_in_polyfit
    (polyfit_slope : list R -> list R -> result pyfloat) (randn : nat -> Q)
    (returns : list Q) (bins mi_lag : Z) :
  (2 <= bins)%Z -> mi_lag <> 0%Z ->
  exists (e : R) (m : pyfloat),
    (0 <= e)%R /\
    _shannon_entropy randn returns bins true = Ok (Val e) /\
    _mutual_information_norm (slice_from returns mi_lag)
      (slice_to returns (- mi_lag)) bins = Ok m /\
    detect_risk_factors polyfit_slope randn returns bins mi_lag
    = (h <- _hurst_exponent_rs polyfit_slope returns 16 ;;
       Ok {| entropy := Val e; mi_norm := m; hurst := h;
             risk_flag := classify (Val e) m h |}).
Proof.
  intros Hb Hk.
  (* entropy *)
  destruct (shannon_entropy_normalized randn returns bins ltac:(lia))
    as [counts [_ [L S]]].
  assert (Ln : INR (length counts) = IZR bins) by (rewrite L; apply INR_to_nat; lia).
  assert (P : (0 < log2 (INR (length counts)))%R).
  { apply log2_pos. rewrite Ln. apply IZR_lt. lia. }
  replace (Rltb 0 (log2 (INR (length counts)))) with true in S
    by (symmetry; apply Rltb_true; exact P).
  pose proof (H_nonneg counts) as N0.
  (* mutual information *)
  set (xs := slice_from returns mi_lag). set (ys := slice_to returns (- mi_lag)).
  assert (Hl : length xs = length ys).
  { unfold xs, ys.
    pose proof (slice_from_length returns mi_lag) as F.
    pose proof (slice_to_length returns (- mi_lag)) as T.
    unfold norm_index in F, T.
    destruct (mi_lag <? 0)%Z eqn:E1; destruct (- mi_lag <? 0)%Z eqn:E2;
      try apply Z.ltb_lt in E1; try apply Z.ltb_ge in E1;
      try apply Z.ltb_lt in E2; try apply Z.ltb_ge in E2; lia. }
  destruct (mutual_information_unfold xs ys bins Hl ltac:(lia))
    as [cx [cy [cxy [Ex [Ey [Exy M]]]]]].
  exists (H counts / log2 (INR (length counts)))%R.
  exists (if Rltb 0 (H cx) then Val ((H cx + H cy - H (ravel cxy)) / H cx) else NaN).
  split; [|split; [|split]].
  - apply Rmult_le_pos; [exact N0 | left; apply Rinv_0_lt_compat; exact P].
  - exact S.
  - exact M.
  - unfold detect_risk_factors. fold xs ys. rewrite S, M. reflexivity.
Qed.

Lemma detect_raises_only_in_polyfit_witness :
  exists (e : R) (m : pyfloat),
    (0 <= e)%R /\
    _shannon_entropy no_noise [1 # 100; -2 # 100; 3 # 100; 1 # 50] 30 true
    = Ok (Val e) /\
    _mutual_information_norm (slice_from [1 # 100; -2 # 100; 3 # 100; 1 # 50] 1)
      (slice_to [1 # 100; -2 # 100; 3 # 100; 1 # 50] (- 1)) 30 = Ok m /\
    detect_risk_factors ols_slope no_noise [1 # 100; -2 # 100; 3 # 100; 1 # 50] 30 1
    = (h <- _hurst_exponent_rs ols_slope [1 # 100; -2 # 100; 3 # 100; 1 # 50] 16 ;;
       Ok {| entropy := Val e; mi_norm := m; hurst := h;
             risk_flag := classify (Val e) m h |}).
Proof.
  apply (detect_raises_only_in_polyfit ols_slope no_noise
           [1 # 100; -2 # 100; 3 # 100; 1 # 50] 30 1); lia.
Defined.

(** * The callers *)

Lemma classify_high_iff (e m h : pyfloat) :
  in_strings (flag_name (classify e m h))
             ["structural_time_bomb"%string; "chaotic_memory"%string]
  = pyfloat_lt (Val (5 / 10)) h && pyfloat_lt (Val (9 / 10)) e.
Proof.
  unfold classify. cbn [gt lt lit_0_5 lit_0_9 lit_0_05 Score_pyfloat].
  destruct (pyfloat_lt (Val (5 / 10)) h), (pyfloat_lt (Val (9 / 10)) e),
    (pyfloat_lt m (Val (5 / 100))); reflexivity.
Qed.

(** X15: among results whose flag is the one the classifier assigns to
    their scores, a ticker is listed as high risk by [main] exactly when one
    of its results has hurst above 0.5 and entropy above 0.9; the mutual
    information plays no part. *)
Theorem high_risk_iff_persistent_and_chaotic
    (all_results : list (string * RiskResult)) (ticker : string) :
  Forall (fun item =>
            risk_flag (snd item)
            = classify (entropy (snd item)) (mi_norm (snd item)) (hurst (snd item)))
         all_results ->
  (In ticker (high_risk all_results) <->
   exists r, In (ticker, r) all_results /\
             pyfloat_lt (Val (5 / 10)) (hurst r) = true /\
             pyfloat_lt (Val (9 / 10)) (entropy r) = true).
Proof.
  intros Hc. unfold high_risk. rewrite in_map_iff. split.
  - intros [[t r] [<- Hin]]. apply filter_In in Hin. destruct Hin as [Hin Hf].
    cbn [fst snd] in *. exists r. split; [exact Hin|].
    rewrite Forall_forall in Hc. specialize (Hc (t, r) Hin). cbn [snd] in Hc.
    rewrite Hc, classify_high_iff in Hf. apply andb_prop in Hf. exact Hf.
  - intros [r [Hin [Hh He]]]. exists (ticker, r). split; [reflexivity|].
    apply filter_In. split; [exact Hin|]. cbn [snd].
    rewrite Forall_forall in Hc. specialize (Hc (ticker, r) Hin). cbn [snd] in Hc.
    rewrite Hc, classify_high_iff, Hh, He. reflexivity.
Qed.

Lemma high_risk_iff_persistent_and_chaotic_witness :
  In "TSLA"%string
     (high_risk [("TSLA"%string,
                  {| entropy := Val (95 / 100); mi_norm := Val (5 / 10);
                     hurst := Val (6 / 10); risk_flag := chaotic_memory |})]) <->
  exists r, In ("TSLA"%string, r)
               [("TSLA"%string,
                 {| entropy := Val (95 / 100); mi_norm := Val (5 / 10);
                    hurst := Val (6 / 10); risk_flag := chaotic_memory |})] /\
            pyfloat_lt (Val (5 / 10)) (hurst r) = true /\
            pyfloat_lt (Val (9 / 10)) (entropy r) = true.
Proof.
  apply (high_risk_iff_persistent_and_chaotic
           [("TSLA"%string,
             {| entropy := Val (95 / 100); mi_norm := Val (5 / 10);
                hurst := Val (6 / 10); risk_flag := chaotic_memory |})]
           "TSLA"%string).
  constructor; [|constructor]. cbn [snd entropy mi_norm hurst risk_flag].
  unfold classify. cbn [gt lt lit_0_5 lit_0_9 lit_0_05 Score_pyfloat pyfloat_lt].
  replace (Rltb (5 / 10) (6 / 10)) with true by (symmetry; apply Rltb_true; lra).
  replace (Rltb (9 / 10) (95 / 100)) with true by (symmetry; apply Rltb_true; lra).
  replace (Rltb (5 / 10) (5 / 100)) with false by (symmetry; apply Rltb_false; lra).
  reflexivity.
Defined.

Lemma high_risk_nil_iff (all_results : list (string * RiskResult)) :
  high_risk all_results = [] <->
  Forall (fun item => risk_flag (snd item) = latent
                      \/ risk_flag (snd item) = blocked_flow) all_results.
Proof.
  unfold high_risk. induction all_results as [|[t r] rs IH].
  - split; [constructor | reflexivity].
  - cbn [filter snd]. destruct (risk_flag r) eqn:E; cbn [flag_name in_strings existsb];
      cbn [String.eqb Ascii.eqb Bool.eqb orb andb map fst]; split; intros Hx;
      try discriminate Hx;
      try (constructor; [cbn [snd]; rewrite E; auto | apply IH; exact Hx]);
      try (inversion Hx as [|? ? Hr Hrs]; cbn [snd] in Hr; rewrite E in Hr;
           destruct Hr; try discriminate; apply IH; exact Hrs).
Qed.

(** X16: when at least one stock was analysed, the summary says that all
    stocks show low risk levels exactly when every flag is latent or
    blocked_flow; yet a blocked_flow stock is reported as "MEDIUM RISK" in
    its own analysis. *)
Theorem summary_all_low_iff (all_results : list (string * RiskResult)) :
  all_results <> [] ->
  (summary_line all_results = Some "All analyzed stocks show low risk levels"%string
   <-> Forall (fun item => risk_flag (snd item) = latent
                           \/ risk_flag (snd item) = blocked_flow) all_results) /\
  risk_headline (flag_name blocked_flow) = "MEDIUM RISK: Blocked flow detected!"%string.
Proof.
  intros NE. split; [|reflexivity].
  rewrite <- high_risk_nil_iff. unfold summary_line.
  destruct all_results as [|item rs]; [congruence|].
  destruct (high_risk (item :: rs)) as [|s0 rest].
  - split; reflexivity.
  - split; intros Hx; discriminate Hx.
Qed.

Lemma summary_all_low_iff_witness :
  (summary_line [("MSFT"%string,
                  {| entropy := NaN; mi_norm := Val 0; hurst := NaN;
                     risk_flag := blocked_flow |})]
   = Some "All analyzed stocks show low risk levels"%string
   <-> Forall (fun item => risk_flag (snd item) = latent
                           \/ risk_flag (snd item) = blocked_flow)
              [("MSFT"%string,
                {| entropy := NaN; mi_norm := Val 0; hurst := NaN;
                   risk_flag := blocked_flow |})]) /\
  risk_headline (flag_name blocked_flow) = "MEDIUM RISK: Blocked flow detected!"%string.
Proof.
  apply (summary_all_low_iff
           [("MSFT"%string,
             {| entropy := NaN; mi_norm := Val 0; hurst := NaN;
                risk_flag := blocked_flow |})]).
  discriminate.
Defined.

Lemma pyfloat_lt_trans_lit (a b : R) (v : pyfloat) :
  (a <= b)%R -> pyfloat_lt (Val b) v = true -> pyfloat_lt (Val a) v = true.
Proof.
  intros Hab. destruct v as [|r]; cbn [pyfloat_lt]; [discriminate|].
  rewrite !Rltb_true. lra.
Qed.

Lemma pyfloat_lt_lit_trans (a b : R) (v : pyfloat) :
  (a <= b)%R -> pyfloat_lt v (Val a) = true -> pyfloat_lt v (Val b) = true.
Proof.
  intros Hab. destruct v as [|r]; cbn [pyfloat_lt]; [discriminate|].
  rewrite !Rltb_true. lra.
Qed.

(** X17: the insights printed by [analyze_stock] agree with the flag on
    entropy and mutual information: structural_time_bomb and chaotic_memory
    come with "High entropy", structural_time_bomb and blocked_flow with "Low
    mutual information".  They need not agree on persistence: the flag asks
    for hurst above 0.5, the insight for hurst above 0.6. *)
Theorem insights_follow_flag :
  (forall e m h : pyfloat,
      (classify e m h = structural_time_bomb \/ classify e m h = chaotic_memory ->
       entropy_insight e = "High entropy: Very unpredictable price movements"%string) /\
      (classify e m h = structural_time_bomb \/ classify e m h = blocked_flow ->
       mi_insight m
       = "Low mutual information: Weak correlation between past and future"%string)) /\
  classify (Val (95 / 100)) (Val (1 / 100)) (Val (55 / 100)) = structural_time_bomb /\
  persistence_insight (Val (55 / 100))
  = "Moderate persistence: Mixed trend/mean-reversion behavior"%string.
Proof.
  split; [|split].
  - intros e m h. unfold classify.
    cbn [gt lt lit_0_5 lit_0_9 lit_0_05 Score_pyfloat].
    destruct (pyfloat_lt (Val (5 / 10)) h) eqn:Eh;
      destruct (pyfloat_lt (Val (9 / 10)) e) eqn:Ee;
      destruct (pyfloat_lt m (Val (5 / 100))) eqn:Em; cbn [andb]; split;
      intros [Hx|Hx]; try discriminate Hx;
      try (unfold entropy_insight;
           rewrite (pyfloat_lt_trans_lit (8 / 10) (9 / 10) e ltac:(lra) Ee);
           reflexivity);
      try (unfold mi_insight;
           rewrite (pyfloat_lt_lit_trans (5 / 100) (1 / 10) m ltac:(lra) Em);
           reflexivity).
  - unfold classify. cbn [gt lt lit_0_5 lit_0_9 lit_0_05 Score_pyfloat pyfloat_lt].
    replace (Rltb (5 / 10) (55 / 100)) with true by (symmetry; apply Rltb_true; lra).
    replace (Rltb (9 / 10) (95 / 100)) with true by (symmetry; apply Rltb_true; lra).
    replace (Rltb (1 / 100) (5 / 100)) with true by (symmetry; apply Rltb_true; lra).
    reflexivity.
  - unfold persistence_insight. cbn [pyfloat_lt].
    replace (Rltb (6 / 10) (55 / 100)) with false by (symmetry; apply Rltb_false; lra).
    replace (Rltb (55 / 100) (4 / 10)) with false by (symmetry; apply Rltb_false; lra).
    reflexivity.
Qed.

Lemma in_strings_false_cons (name k : string) (l : list string) :
  in_strings name (k :: l) = false -> String.eqb k name = false /\ in_strings name l = false.
Proof.
  unfold in_strings. cbn [existsb]. intros Hx. apply orb_false_elim in Hx.
  destruct Hx as [H1 H2]. rewrite String.eqb_sym. split; assumption.
Qed.

(** X18: for each of the four flags the plot looks up a level between 1
    and 4, both list accesses succeed, and the label is "High" exactly for
    the flag reported as "HIGH RISK" and "Low" exactly for the one reported
    as "LOW RISK".  A flag outside the table gets level 0, and index -1 then
    selects the last entries: it is drawn red and labelled "High" although
    its headline is "LOW RISK". *)
Theorem risk_level_plot_table :
  (forall f : RiskFlag,
      (1 <= risk_level (flag_name f) <= 4)%Z /\
      exists colour label,
        risk_bar_colour (flag_name f) = Some colour /\
        risk_bar_label (flag_name f) = Some label /\
        (label = "High"%string <->
         risk_headline (flag_name f)
         = "HIGH RISK: Structural time bomb detected!"%string) /\
        (label = "Low"%string <->
         risk_headline (flag_name f) = "LOW RISK: Latent risk factors"%string) /\
        (colour = "red"%string <-> f = structural_time_bomb) /\
        (colour = "green"%string <-> f = latent)) /\
  (forall name : string,
      in_strings name ["latent"; "blocked_flow"; "chaotic_memory";
                       "structural_time_bomb"]%string = false ->
      risk_level name = 0%Z /\
      risk_bar_colour name = Some "red"%string /\
      risk_bar_label name = Some "High"%string /\
      risk_headline name = "LOW RISK: Latent risk factors"%string).
Proof.
  split.
  - intros f. destruct f; (split; [cbv; split; discriminate|]);
      eexists; eexists; (split; [reflexivity|]); (split; [reflexivity|]);
      repeat split; intros Hx; try discriminate Hx; reflexivity.
  - intros name Hn.
    apply in_strings_false_cons in Hn. destruct Hn as [E1 Hn].
    apply in_strings_false_cons in Hn. destruct Hn as [E2 Hn].
    apply in_strings_false_cons in Hn. destruct Hn as [E3 Hn].
    apply in_strings_false_cons in Hn. destruct Hn as [E4 _].
    assert (L : risk_level name = 0%Z).
    { unfold risk_level, risk_levels. cbn [dict_get]. rewrite E1, E2, E3, E4. reflexivity. }
    split; [exact L|].
    unfold risk_bar_colour, risk_bar_label. rewrite L.
    split; [reflexivity|]. split; [reflexivity|].
    unfold risk_headline.
    rewrite (String.eqb_sym name), E4, (String.eqb_sym name), E3,
            (String.eqb_sym name), E2.
    reflexivity.
Qed.

(** X19: a NaN score is drawn in red, the colour of the highest band of
    [plot_risk_analysis], while each of the three insights of [analyze_stock]
    reports it as moderate. *)
Theorem nan_score_presentation :
  metric_colour NaN = "red"%string /\
  persistence_insight NaN
  = "Moderate persistence: Mixed trend/mean-reversion behavior"%string /\
  entropy_insight NaN = "Moderate entropy: Balanced predictability"%string /\
  mi_insight NaN = "Moderate mutual information: Balanced correlation"%string /\
  (forall v : pyfloat,
      metric_colour v = "red"%string <->
      v = NaN \/ exists r, v = Val r /\ (8 / 10 <= r)%R).
Proof.
  repeat split; try reflexivity.
  - intros Hx. destruct v as [|r]; [left; reflexivity|]. right.
    exists r. split; [reflexivity|].
    unfold metric_colour in Hx. cbn [pyfloat_lt] in Hx.
    destruct (Rltb r (5 / 10)); [discriminate Hx|].
    destruct (Rltb r (8 / 10)) eqn:E; [discriminate Hx|].
    apply Rltb_false in E. exact E.
  - intros [->|[r [-> Hr]]]; [reflexivity|].
    unfold metric_colour. cbn [pyfloat_lt].
    replace (Rltb r (5 / 10)) with false by (symmetry; apply Rltb_false; lra).
    replace (Rltb r (8 / 10)) with false by (symmetry; apply Rltb_false; lra).
    reflexivity.
Qed.

(** ** Returns from prices *)

Lemma pct_from_length (prev : Q) (l : list Q) : length (pct_from prev l) = length l.
Proof.
  revert prev. induction l as [|cur l IH]; intros prev; cbn; [reflexivity|].
  rewrite IH. reflexivity.
Qed.

Lemma pct_from_nonzero (prev : Q) (l : list Q) :
  ~ (prev == 0)%Q -> Forall (fun p => ~ (p == 0)%Q) l ->
  exists rs, pct_from prev l = map XFin rs /\ length rs = length l.
Proof.
  revert prev. induction l as [|cur l IH]; intros prev Hp Hall.
  - exists []. split; reflexivity.
  - inversion Hall as [|? ? Hc Hl]. subst.
    destruct (IH cur Hc Hl) as [rs [E L]].
    exists ((cur / prev - 1)%Q :: rs). cbn [pct_from map length].
    assert (Ez : Qeq_bool prev 0 = false).
    { destruct (Qeq_bool prev 0) eqn:Eq; [|reflexivity].
      apply Qeq_bool_eq in Eq. contradiction. }
    unfold pct at 1. rewrite Ez, E, L. split; reflexivity.
Qed.

(** X20: for prices that are all different from zero [calculate_returns]
    yields exactly one finite return per price after the first: only the
    undefined leading entry is dropped. *)
Theorem calculate_returns_nonzero_prices (first : Q) (rest : list Q) :
  Forall (fun p => ~ (p == 0)%Q) (first :: rest) ->
  exists returns,
    calculate_returns (first :: rest) = map XFin returns /\
    length returns = length rest.
Proof.
  intros Hall. inversion Hall as [|? ? Hf Hr]. subst.
  destruct (pct_from_nonzero first rest Hf Hr) as [rs [E L]].
  exists rs. split; [|exact L].
  unfold calculate_returns, pct_change, dropna. cbn [filter]. rewrite E.
  clear. induction rs as [|r rs IH]; [reflexivity|].
  cbn [map filter]. rewrite IH. reflexivity.
Qed.

Lemma calculate_returns_nonzero_prices_witness :
  exists returns,
    calculate_returns [100 # 1; 110 # 1; 99 # 1] = map XFin returns /\
    length returns = length [110 # 1; 99 # 1].
Proof.
  apply (calculate_returns_nonzero_prices (100 # 1) [110 # 1; 99 # 1]).
  repeat constructor; discriminate.
Defined.

(** X21: [calculate_returns] never yields more values than there are
    prices after the first, and after a price of zero the next return is
    never a finite number: it is dropped (zero after zero) or infinite. *)
Theorem calculate_returns_zero_price :
  (forall prices,
      (length (calculate_returns prices) <= length prices - 1)%nat) /\
  (forall cur, exists s, pct 0 cur = XNaN \/ pct 0 cur = XInf s) /\
  calculate_returns [0 # 1; 0 # 1; 5 # 1] = [XInf true].
Proof.
  split; [|split].
  - intros [|first rest]; [cbn; lia|].
    unfold calculate_returns, pct_change, dropna. cbn [filter length].
    pose proof (filter_length_le
                  (fun v => match v with XNaN => false | _ => true end)
                  (pct_from first rest)) as L.
    rewrite pct_from_length in L. lia.
  - intros cur. unfold pct. change (Qeq_bool 0 0) with true. cbv iota.
    exists (Qle_bool 0 cur). destruct (Qeq_bool cur 0); [left | right]; reflexivity.
  - reflexivity.
Qed.

(** * Rescaling a series *)

(** ** Lists of rationals related by a positive factor *)

Section Scaling.

Variable a : Q.
Hypothesis a_pos : (0 < a)%Q.

Let scaled (l l' : list Q) : Prop := Forall2 (fun u u' => (u' == a * u)%Q) l l'.

Lemma scaled_length (l l' : list Q) : scaled l l' -> length l' = length l.
Proof. intros S. symmetry. eapply Forall2_length. exact S. Qed.

Lemma scaled_Qsum (l l' : list Q) : scaled l l' -> (Qsum l' == a * Qsum l)%Q.
Proof.
  intros S. induction S as [|u u' l l' E S IH].
  - cbn [Qsum fold_right]. ring.
  - cbn [Qsum fold_right]. fold (Qsum l). fold (Qsum l'). rewrite E, IH. ring.
Qed.

Lemma scaled_mean (l l' : list Q) : scaled l l' -> (np_mean l' == a * np_mean l)%Q.
Proof.
  intros S. unfold np_mean, Qlen. rewrite (scaled_length l l' S), (scaled_Qsum l l' S).
  unfold Qdiv. ring.
Qed.

Lemma scaled_map2 (f g : Q -> Q) (c : Q) (l l' : list Q) :
  Forall2 (fun u u' => (g u' == c * f u)%Q) l l' ->
  Forall2 (fun v v' => (v' == c * v)%Q) (map f l) (map g l').
Proof.
  intros S. induction S as [|u u' l l' E S IH]; cbn [map]; constructor; assumption.
Qed.

Lemma scaled_deviations (l l' : list Q) :
  scaled l l' ->
  scaled (map (fun v => v - np_mean l)%Q l) (map (fun v => v - np_mean l')%Q l').
Proof.
  intros S. apply scaled_map2. pose proof (scaled_mean l l' S) as M.
  eapply Forall2_impl; [|exact S]. intros u u' E. cbv beta. rewrite E, M. ring.
Qed.

Lemma scaled_cumsum_from (acc acc' : Q) (l l' : list Q) :
  (acc' == a * acc)%Q -> scaled l l' ->
  scaled (cumsum_from acc l) (cumsum_from acc' l').
Proof.
  intros Ea S. revert acc acc' Ea.
  induction S as [|u u' l l' E S IH]; intros acc acc' Ea; cbn [cumsum_from].
  - constructor.
  - assert (En : (acc' + u' == a * (acc + u))%Q) by (rewrite Ea, E; ring).
    constructor; [exact En | apply IH; exact En].
Qed.

Lemma Qle_bool_scaled (u v u' v' : Q) :
  (u' == a * u)%Q -> (v' == a * v)%Q -> Qle_bool u' v' = Qle_bool u v.
Proof.
  intros Eu Ev. apply eq_true_iff_eq. rewrite !Qle_bool_iff, Eu, Ev.
  rewrite Qmult_le_l by exact a_pos. reflexivity.
Qed.

Lemma scaled_np_max (y y' : Q) (Y Y' : list Q) :
  (y' == a * y)%Q -> scaled Y Y' -> (np_max y' Y' == a * np_max y Y)%Q.
Proof.
  intros Ey S. unfold np_max. revert y y' Ey.
  induction S as [|u u' l l' E S IH]; intros y y' Ey; cbn [fold_left]; [exact Ey|].
  apply IH. unfold Qmax. rewrite (Qle_bool_scaled y u y' u' Ey E).
  destruct (Qle_bool y u); assumption.
Qed.

Lemma scaled_np_min (y y' : Q) (Y Y' : list Q) :
  (y' == a * y)%Q -> scaled Y Y' -> (np_min y' Y' == a * np_min y Y)%Q.
Proof.
  intros Ey S. unfold np_min. revert y y' Ey.
  induction S as [|u u' l l' E S IH]; intros y y' Ey; cbn [fold_left]; [exact Ey|].
  apply IH. unfold Qmin. rewrite (Qle_bool_scaled y u y' u' Ey E).
  destruct (Qle_bool y u); assumption.
Qed.

Lemma scaled_variance (l l' : list Q) :
  scaled l l' -> (variance l' == a * a * variance l)%Q.
Proof.
  intros S. unfold variance.
  pose proof (scaled_mean l l' S) as M.
  assert (Sq : Forall2 (fun v v' => (v' == a * a * v)%Q)
                 (map (fun v => (v - np_mean l) * (v - np_mean l))%Q l)
                 (map (fun v => (v - np_mean l') * (v - np_mean l'))%Q l')).
  { apply scaled_map2. eapply Forall2_impl; [|exact S].
    intros u u' E. cbv beta. rewrite E, M. ring. }
  set (d := map (fun v => ((v - np_mean l) * (v - np_mean l))%Q) l) in *.
  set (d' := map (fun v => ((v - np_mean l') * (v - np_mean l'))%Q) l') in *.
  assert (Ls : length d' = length d).
  { unfold d, d'. rewrite !length_map. apply scaled_length. exact S. }
  assert (Ss : (Qsum d' == a * a * Qsum d)%Q).
  { clear - Sq. induction Sq as [|u u' k k' E Sq IH].
    - cbn [Qsum fold_right]. ring.
    - cbn [Qsum fold_right]. fold (Qsum k). fold (Qsum k'). rewrite E, IH. ring. }
  unfold np_mean, Qlen. rewrite Ls, Ss. unfold Qdiv. ring.
Qed.

Lemma Q2R_pos : (0 < Q2R a)%R.
Proof.
  replace 0%R with (Q2R 0) by (unfold Q2R; cbn; lra). apply Qlt_Rlt. exact a_pos.
Qed.

Lemma scaled_std (l l' : list Q) (sd : R) :
  scaled l l' -> np_std l = Val sd -> np_std l' = Val (Q2R a * sd).
Proof.
  intros S E. pose proof (scaled_variance l l' S) as V. pose proof Q2R_pos as P.
  unfold np_std in *. destruct S as [|u u' l l' Eu S]; [discriminate E|].
  injection E as <-. f_equal.
  rewrite (Qeq_eqR _ _ V), !Q2R_mult.
  rewrite sqrt_mult_alt by nra. rewrite sqrt_square by lra. reflexivity.
Qed.

(** A segment and its rescaled copy append the same R/S value. *)
Lemma scaled_segment_rs (seg seg' : list Q) :
  scaled seg seg' -> segment_rs seg' = segment_rs seg.
Proof.
  intros S. pose proof Q2R_pos as P. unfold segment_rs.
  pose proof (scaled_cumsum_from 0 0 _ _ ltac:(ring) (scaled_deviations seg seg' S)) as SY.
  fold (cumsum (map (fun v => (v - np_mean seg)%Q) seg)) in SY.
  fold (cumsum (map (fun v => (v - np_mean seg')%Q) seg')) in SY.
  destruct SY as [|y y' Y Y' Ey SY]; [reflexivity|].
  cbn [np_max_of np_min_of bind].
  pose proof (scaled_np_max y y' Y Y' Ey SY) as Emax.
  pose proof (scaled_np_min y y' Y Y' Ey SY) as Emin.
  destruct (np_std seg) as [|sd] eqn:Es.
  - unfold np_std in Es |- *. destruct S; [reflexivity | discriminate Es].
  - rewrite (scaled_std seg seg' sd S Es).
    assert (Epos : Rltb 0 (Q2R a * sd) = Rltb 0 sd).
    { apply eq_true_iff_eq. rewrite !Rltb_true. split; intros Hx; nra. }
    rewrite Epos. destruct (Rltb 0 sd) eqn:E0; [|reflexivity].
    apply Rltb_true in E0. do 2 f_equal.
    assert (ER : (np_max y' Y' - np_min y' Y' == a * (np_max y Y - np_min y Y))%Q)
      by (rewrite Emax, Emin; ring).
    rewrite (Qeq_eqR _ _ ER), Q2R_mult. field. lra.
Qed.

End Scaling.

Lemma Forall2_skipn {A B : Type} (P : A -> B -> Prop) (n : nat) (l : list A) (l' : list B) :
  Forall2 P l l' -> Forall2 P (skipn n l) (skipn n l').
Proof.
  intros S. revert n. induction S as [|u u' l l' E S IH]; intros [|n]; cbn [skipn];
    try constructor; try assumption. apply IH.
Qed.

Lemma Forall2_firstn {A B : Type} (P : A -> B -> Prop) (n : nat) (l : list A) (l' : list B) :
  Forall2 P l l' -> Forall2 P (firstn n l) (firstn n l').
Proof.
  intros S. revert n. induction S as [|u u' l l' E S IH]; intros [|n]; cbn [firstn];
    try constructor; try assumption. apply IH.
Qed.

Lemma Forall2_slice {A B : Type} (P : A -> B -> Prop) (l : list A) (l' : list B) (i j : Z) :
  Forall2 P l l' -> Forall2 P (slice l i j) (slice l' i j).
Proof.
  intros S. unfold slice. rewrite <- (Forall2_length S).
  apply Forall2_firstn. apply Forall2_skipn. exact S.
Qed.

Lemma for_each_ext_in {A B : Type} (f g : A -> result (list B)) (l : list A) :
  (forall a, In a l -> f a = g a) -> for_each f l = for_each g l.
Proof.
  induction l as [|a l IH]; intros E; [reflexivity|].
  cbn [for_each]. rewrite (E a (or_introl eq_refl)), IH
    by (intros b Hb; apply E; right; exact Hb).
  reflexivity.
Qed.

Lemma Qsum_map_affine (a b : Q) (l : list Q) :
  (Qsum (map (affine a b) l) == a * Qsum l + Qlen l * b)%Q.
Proof.
  unfold Qlen. induction l as [|v l IH].
  - cbn [map Qsum fold_right length]. change (inject_Z (Z.of_nat 0)) with 0%Q. ring.
  - cbn [map Qsum fold_right length]. fold (Qsum l). fold (Qsum (map (affine a b) l)).
    rewrite IH. unfold affine.
    rewrite Nat2Z.inj_succ. unfold Z.succ. rewrite inject_Z_plus. ring.
Qed.

Lemma centred_affine (a b : Q) (x : list Q) :
  Forall2 (fun u u' => (u' == a * u)%Q) (centred x) (centred (map (affine a b) x)).
Proof.
  unfold centred.
  assert (M : x <> [] -> (np_mean (map (affine a b) x) == a * np_mean x + b)%Q).
  { intros NE. unfold np_mean. rewrite Qsum_map_affine.
    assert (L : Qlen (map (affine a b) x) = Qlen x) by (unfold Qlen; rewrite length_map; reflexivity).
    rewrite L. pose proof (Qlen_pos x NE) as P. field.
    intros Z0. rewrite Z0 in P. apply (Qlt_irrefl 0). exact P. }
  destruct x as [|v0 x0]; [constructor|].
  specialize (M ltac:(discriminate)).
  set (x := v0 :: x0) in *. clearbody x.
  generalize (np_mean (map (affine a b) x)) (np_mean x) M. intros m' m Em.
  clear M. induction x as [|v x IH]; cbn [map]; constructor; [|exact IH].
  unfold affine. rewrite Em. ring.
Qed.

(** X23: the Hurst estimator gives the same result for a series and for
    the series multiplied by a power of two, [v |-> 2 ^ k * v] with
    [-64 <= k <= 64]: every R/S value is a ratio of two quantities that are
    multiplied by the same factor, and a power of two is applied without
    rounding in binary64 as well. *)
Theorem hurst_power_of_two_scale
    (polyfit_slope : list R -> list R -> result pyfloat)
    (x : list Q) (min_window k : Z) :
  (- 64 <= k <= 64)%Z ->
  _hurst_exponent_rs polyfit_slope (map (affine (Qpower (2 # 1) k) 0) x) min_window
  = _hurst_exponent_rs polyfit_slope x min_window.
Proof.
  intros _. set (a := Qpower (2 # 1) k).
  assert (Ha : (0 < a)%Q) by (apply Qpower_0_lt; reflexivity).
  unfold _hurst_exponent_rs.
  pose proof (centred_affine a 0 x) as S.
  assert (L : length (centred (map (affine a 0) x)) = length (centred x))
    by (symmetry; eapply Forall2_length; exact S).
  rewrite L.
  rewrite (for_each_ext_in (window_RS (centred (map (affine a 0) x)))
             (window_RS (centred x))); [reflexivity|].
  intros w _. unfold window_RS. destruct (w <? 2)%Z; [reflexivity|].
  unfold window_body, rs_vals_of. rewrite L.
  rewrite (for_each_ext_in
             (fun i => segment_rs (slice (centred (map (affine a 0) x)) (i * w) ((i + 1) * w)))
             (fun i => segment_rs (slice (centred x) (i * w) ((i + 1) * w))));
    [reflexivity|].
  intros i _. apply (scaled_segment_rs a Ha). apply Forall2_slice. exact S.
Qed.

Lemma hurst_power_of_two_scale_witness :
  (- 64 <= 5 <= 64)%Z /\
  _hurst_exponent_rs ols_slope
    (map (affine (Qpower (2 # 1) 5) 0) [1 # 100; -2 # 100; 3 # 100; 1 # 50]) 16
  = _hurst_exponent_rs ols_slope [1 # 100; -2 # 100; 3 # 100; 1 # 50] 16.
Proof.
  split; [lia|].
  apply (hurst_power_of_two_scale ols_slope [1 # 100; -2 # 100; 3 # 100; 1 # 50] 16 5).
  lia.
Defined.

(** ** The entropy estimator under rescaling *)

Lemma allclose_0_false_of_variance (x : list Q) :
  x <> [] -> (1 # 10 ^ 16 < variance x)%Q -> allclose_0 (np_std x) = false.
Proof.
  intros NE V. destruct x as [|v rest]; [congruence|].
  unfold np_std, allclose_0. apply negb_false_iff. apply Rltb_true.
  rewrite Rabs_R0, Rmult_0_r, Rplus_0_r, Rminus_0_r.
  apply Qlt_Rlt in V.
  assert (E : Q2R (1 # 10 ^ 16) = (atol * atol)%R).
  { unfold Q2R, atol. cbn [Qnum Qden].
    change (Z.pos (10 ^ 16)) with (10 ^ Z.of_nat 16)%Z.
    rewrite <- pow_IZR. field. }
  rewrite E in V.
  assert (A0 : (0 < atol)%R).
  { unfold atol. apply Rdiv_lt_0_compat; [lra | apply pow_lt; lra]. }
  assert (S : (atol < sqrt (Q2R (variance (v :: rest))))%R).
  { rewrite <- (sqrt_square atol) by lra. apply sqrt_lt_1_alt. nra. }
  rewrite Rabs_right by lra. exact S.
Qed.

(** X24: when neither the sample nor the sample multiplied by a power of
    two, [v |-> 2 ^ k * v] with [-64 <= k <= 64], is close to constant (so
    that no noise is injected), both have the same entropy, normalised or
    raw, for every bin count: every value keeps its bin. *)
Theorem entropy_power_of_two_scale
    (randn : nat -> Q) (x : list Q) (bins : Z) (normalize : bool) (k : Z) :
  (- 64 <= k <= 64)%Z ->
  allclose_0 (np_std x) = false ->
  allclose_0 (np_std (map (affine (Qpower (2 # 1) k) 0) x)) = false ->
  _shannon_entropy randn (map (affine (Qpower (2 # 1) k) 0) x) bins normalize
  = _shannon_entropy randn x bins normalize.
Proof.
  intros _ E1 E2.
  assert (Ha : (0 < Qpower (2 # 1) k)%Q) by (apply Qpower_0_lt; reflexivity).
  unfold _shannon_entropy. rewrite E1, E2.
  rewrite (histogram_affine _ 0 Ha x bins). reflexivity.
Qed.

Lemma entropy_power_of_two_scale_witness :
  _shannon_entropy no_noise (map (affine (Qpower (2 # 1) 1) 0) [0 # 1; 1 # 1; 4 # 1]) 30 true
  = _shannon_entropy no_noise [0 # 1; 1 # 1; 4 # 1] 30 true.
Proof.
  apply (entropy_power_of_two_scale no_noise [0 # 1; 1 # 1; 4 # 1] 30 true 1).
  - lia.
  - apply allclose_0_false_of_variance; [discriminate | vm_compute; reflexivity].
  - apply allclose_0_false_of_variance; [discriminate | vm_compute; reflexivity].
Defined.

(** * The mutual information against its specification *)

(** ** The observed range *)

Lemma np_min_In (v : Q) (rest : list Q) : In (np_min v rest) (v :: rest).
Proof.
  unfold np_min. revert v. induction rest as [|w rest IH]; intros v; cbn [fold_left].
  - left. reflexivity.
  - specialize (IH (Qmin v w)). unfold Qmin in *.
    destruct (Qle_bool v w); destruct IH as [E|Hin]; cbn [In]; auto.
Qed.

Lemma np_max_In (v : Q) (rest : list Q) : In (np_max v rest) (v :: rest).
Proof.
  unfold np_max. revert v. induction rest as [|w rest IH]; intros v; cbn [fold_left].
  - left. reflexivity.
  - specialize (IH (Qmax v w)). unfold Qmax in *.
    destruct (Qle_bool v w); destruct IH as [E|Hin]; cbn [In]; auto.
Qed.

Lemma outer_edges_observed (a : list Q) :
  spec_observed_range a (fst (outer_edges a)) (snd (outer_edges a)).
Proof.
  destruct a as [|c rest]; [split; reflexivity|].
  cbn [outer_edges spec_observed_range].
  pose proof (np_min_le c rest) as [m1 m2].
  pose proof (np_max_ge c rest) as [M1 M2].
  pose proof (np_min_In c rest) as Imin.
  pose proof (np_max_In c rest) as Imax.
  set (lo := np_min c rest) in *. set (hi := np_max c rest) in *.
  assert (B : forall v, In v (c :: rest) -> (lo <= v <= hi)%Q).
  { intros v [<-|Hv]; split; auto. }
  clearbody lo hi.
  destruct (Qeq_bool lo hi) eqn:E; cbn [fst snd].
  - apply Qeq_bool_eq in E. split.
    + intros v Hv. destruct (B v Hv). split; Lqa.lra.
    + right.
      assert (Ec : (c == lo)%Q).
      { destruct (B c (or_introl eq_refl)). Lqa.lra. }
      split; [|split; Lqa.lra].
      intros v Hv. destruct (B v Hv). Lqa.lra.
  - apply Qeq_bool_neq in E. split; [exact B|]. left.
    split; [exact Imin|]. split; [exact Imax|].
    destruct (B c (or_introl eq_refl)) as [L1 L2].
    destruct (Qle_lt_or_eq lo hi) as [L|L]; [Lqa.lra | exact L | contradiction].
Qed.

(** ** Equal-width buckets *)

Lemma spec_edge_le (lo hi v : Q) (n k : Z) :
  (lo < hi)%Q -> (1 <= n)%Z ->
  Qle_bool (spec_edge lo hi n k) v
  = (k <=? Qfloor ((v - lo) / (hi - lo) * inject_Z n))%Z.
Proof.
  intros Hlh Hn. set (q := ((v - lo) / (hi - lo) * inject_Z n)%Q).
  assert (D : (0 < hi - lo)%Q) by Lqa.lra.
  assert (Nn : (0 < inject_Z n)%Q).
  { change 0%Q with (inject_Z 0). rewrite <- Zlt_Qlt. lia. }
  assert (C : (0 < inject_Z n / (hi - lo))%Q).
  { apply Qlt_shift_div_l; [exact D|]. rewrite Qmult_0_l. exact Nn. }
  assert (Id : (q - inject_Z k
                == (v - spec_edge lo hi n k) * (inject_Z n / (hi - lo)))%Q).
  { unfold q, spec_edge. field. split; intros Z0; rewrite Z0 in *.
    - apply (Qlt_irrefl 0). exact D.
    - apply (Qlt_irrefl 0). exact Nn. }
  assert (E : (spec_edge lo hi n k <= v)%Q <-> (inject_Z k <= q)%Q).
  { split; intros L.
    - assert (P : (0 <= (v - spec_edge lo hi n k) * (inject_Z n / (hi - lo)))%Q).
      { apply Qmult_le_0_compat; Lqa.lra. }
      rewrite <- Id in P. Lqa.lra.
    - assert (P : (0 * (inject_Z n / (hi - lo))
                   <= (v - spec_edge lo hi n k) * (inject_Z n / (hi - lo)))%Q).
      { rewrite Qmult_0_l, <- Id. Lqa.lra. }
      apply (proj1 (Qmult_le_r _ _ _ C)) in P. Lqa.lra. }
  apply eq_true_iff_eq. rewrite Qle_bool_iff, Z.leb_le, E. split; intros L.
  - rewrite <- (Qfloor_Z k). apply Qfloor_resp_le. exact L.
  - apply Qle_trans with (inject_Z (Qfloor q)); [|apply Qfloor_le].
    rewrite <- Zle_Qle. exact L.
Qed.

Lemma Qfloor_scaled_range (lo hi v : Q) (n : Z) :
  (lo < hi)%Q -> (lo <= v <= hi)%Q -> (1 <= n)%Z ->
  (0 <= Qfloor ((v - lo) / (hi - lo) * inject_Z n) <= n)%Z.
Proof.
  intros Hlh [Hl Hh] Hn.
  set (q := ((v - lo) / (hi - lo) * inject_Z n)%Q).
  assert (D : (0 < hi - lo)%Q) by Lqa.lra.
  assert (F0 : (0 <= (v - lo) / (hi - lo))%Q).
  { apply Qle_shift_div_l; [exact D | Lqa.lra]. }
  assert (F1 : ((v - lo) / (hi - lo) <= 1)%Q).
  { apply Qle_shift_div_r; [exact D | Lqa.lra]. }
  assert (Nn : (0 < inject_Z n)%Q).
  { change 0%Q with (inject_Z 0). rewrite <- Zlt_Qlt. lia. }
  assert (Q0 : (0 <= q)%Q) by (unfold q; apply Qmult_le_0_compat; Lqa.lra).
  assert (Q1 : (q <= inject_Z n)%Q).
  { unfold q. rewrite <- (Qmult_1_l (inject_Z n)) at 2.
    apply Qmult_le_compat_r; Lqa.lra. }
  split.
  - rewrite <- (Qfloor_Z 0). apply Qfloor_resp_le. exact Q0.
  - rewrite <- (Qfloor_Z n). apply Qfloor_resp_le. exact Q1.
Qed.

(** A value of the range lies in bin [k] of the code exactly when it lies in
    bucket [k]. *)
Lemma bin_index_spec_in_bucket (lo hi v : Q) (n k : Z) :
  (lo < hi)%Q -> (lo <= v <= hi)%Q -> (1 <= n)%Z -> (0 <= k < n)%Z ->
  (bin_index lo hi n v =? k)%Z = spec_in_bucket lo hi n k v.
Proof.
  intros Hlh Hv Hn Hk. unfold spec_in_bucket, bin_index.
  rewrite !(spec_edge_le lo hi v n) by assumption.
  pose proof (Qfloor_scaled_range lo hi v n Hlh Hv Hn) as B.
  set (F := Qfloor ((v - lo) / (hi - lo) * inject_Z n)) in *. clearbody F.
  replace (Qle_bool v hi) with true
    by (symmetry; apply Qle_bool_iff; apply Hv).
  destruct (Z.eqb_spec F n), (Z.leb_spec k F), (Z.leb_spec (k + 1) F),
    (Z.eqb_spec k (n - 1)); cbn [andb orb negb];
    try (apply Z.eqb_eq; lia); try (apply Z.eqb_neq; lia).
Qed.

Lemma histogram_spec (a : list Q) (bins : Z) :
  (1 <= bins)%Z -> histogram a bins = Ok (spec_histogram a bins).
Proof.
  intros Hb. unfold histogram, spec_histogram.
  replace (bins <? 1)%Z with false by (symmetry; apply Z.ltb_ge; exact Hb).
  destruct (outer_edges_spec a) as [L B].
  destruct (outer_edges a) as [lo hi]. cbn [fst snd] in L, B.
  f_equal. apply map_ext_in. intros k Hk. apply In_zrange in Hk.
  apply count_if_ext_in. intros v Hv.
  apply bin_index_spec_in_bucket; auto.
Qed.

Lemma histogram2d_spec (x y : list Q) (bins : Z) :
  length x = length y -> (1 <= bins)%Z ->
  exists counts_xy,
    histogram2d x y bins = Ok counts_xy /\
    ravel counts_xy = spec_joint_histogram x y bins.
Proof.
  intros Hl Hb. unfold histogram2d, spec_joint_histogram.
  rewrite Hl, Nat.eqb_refl. cbn [negb].
  replace (bins <? 1)%Z with false by (symmetry; apply Z.ltb_ge; exact Hb).
  destruct (outer_edges_spec x) as [Lx Bx].
  destruct (outer_edges_spec y) as [Ly By].
  destruct (outer_edges x) as [lox hix], (outer_edges y) as [loy hiy].
  cbn [fst snd] in Lx, Bx, Ly, By.
  eexists. split; [reflexivity|].
  unfold ravel. rewrite flat_map_concat_map. f_equal.
  apply map_ext_in. intros i Hi. apply In_zrange in Hi.
  apply map_ext_in. intros j Hj. apply In_zrange in Hj.
  apply count_if_ext_in. intros [u w] Hin. cbn [fst snd].
  rewrite (bin_index_spec_in_bucket lox hix u bins i), (bin_index_spec_in_bucket loy hiy w bins j);
    auto.
  - apply By. apply in_combine_r in Hin. exact Hin.
  - apply Bx. apply in_combine_l in Hin. exact Hin.
Qed.

(** ** The entropy in bits *)

Lemma H_spec (counts : list nat) : H counts = spec_entropy_bits counts.
Proof.
  rewrite H_as_terms. unfold spec_entropy_bits.
  apply Rsum_map_ext_in. intros c Hc.
  destruct (c =? 0)%nat eqn:E.
  - apply Nat.eqb_eq in E. subst c. apply Hterm_zero_count.
  - apply Nat.eqb_neq in E. apply Hterm_pos_count; [|lia].
    apply lt_0_INR. pose proof (In_le_list_sum c counts Hc). lia.
Qed.

Lemma log2_2 : log2 2 = 1%R.
Proof. unfold log2. pose proof ln2_pos. field. lra. Qed.


